(** * The symbol-file resolver of [processor/source_line_resolver.cc]

    A shallow embedding of [SourceLineResolver] and of its nested
    [Module] class: the tokenizer, the four record parsers, the loop of
    [LoadMap], [LookupAddress] and the three public operations of the
    resolver.  C strings are [string]s, [u_int64_t] and [int] values are
    [Z] with the conversions written out, the hash maps are [gmap]s, and
    the [Function] objects that [cur_func] and the function index share
    live in an explicit object store. *)

From Stdlib Require Import ZArith Ascii String List Bool Lia.
From stdpp Require Import base option list gmap strings.

Local Open Scope string_scope.
Local Open Scope list_scope.
Local Open Scope Z_scope.

(** ** The C library functions the parser relies on *)

Module CLib.

Definition NUL : ascii := "000"%char.
Definition LF : ascii := "010"%char.
Definition CR : ascii := "013"%char.
Definition SP : ascii := " "%char.

(** A [char*] is read up to its first NUL byte. *)
Fixpoint c_str (buf : string) : string :=
  match buf with
  | EmptyString => EmptyString
  | String c r => if Ascii.eqb c NUL then EmptyString else String c (c_str r)
  end.

(** [p + n] on a [char*] known to hold at least [n] characters. *)
Fixpoint advance (n : nat) (s : string) : string :=
  match n, s with
  | S n', String _ r => advance n' r
  | _, _ => s
  end.

(** [strncmp(s, lit, strlen(lit)) == 0]. *)
Fixpoint starts_with (lit s : string) : bool :=
  match lit, s with
  | EmptyString, _ => true
  | String a l', String b s' => Ascii.eqb a b && starts_with l' s'
  | String _ _, EmptyString => false
  end.

(** Membership of a character in a delimiter set. *)
Fixpoint is_delim (delims : string) (c : ascii) : bool :=
  match delims with
  | EmptyString => false
  | String d r => Ascii.eqb c d || is_delim r c
  end.

(** [strspn]: the text after the leading delimiters. *)
Fixpoint skip_delims (delims s : string) : string :=
  match s with
  | EmptyString => EmptyString
  | String c r => if is_delim delims c then skip_delims delims r else s
  end.

(** The token that starts at [s], and the saved position after it:
    one character past the delimiter that [strtok] overwrites with
    NUL, or the end of the string. *)
Fixpoint span_token (delims s : string) : string * string :=
  match s with
  | EmptyString => (EmptyString, EmptyString)
  | String c r =>
      if is_delim delims c then (EmptyString, r)
      else let '(t, k) := span_token delims r in (String c t, k)
  end.

(** [strtok] on its saved position.  [None] is the NULL result. *)
Definition strtok (delims saved : string) : option string * string :=
  match skip_delims delims saved with
  | EmptyString => (None, EmptyString)
  | s => let '(t, k) := span_token delims s in (Some t, k)
  end.

(** [isspace] in the C locale. *)
Definition isspace (c : ascii) : bool :=
  let n := nat_of_ascii c in
  (Nat.eqb n 32 || (Nat.leb 9 n && Nat.leb n 13))%bool.

Fixpoint skip_space (s : string) : string :=
  match s with
  | String c r => if isspace c then skip_space r else s
  | EmptyString => EmptyString
  end.

(** The value of a digit character, for bases up to 36. *)
Definition digit_value (c : ascii) : option Z :=
  let n := Z.of_nat (nat_of_ascii c) in
  if (48 <=? n) && (n <=? 57) then Some (n - 48)
  else if (97 <=? n) && (n <=? 122) then Some (n - 87)
  else if (65 <=? n) && (n <=? 90) then Some (n - 55)
  else None.

Definition digit_in (base : Z) (c : ascii) : option Z :=
  match digit_value c with
  | Some d => if d <? base then Some d else None
  | None => None
  end.

(** The longest run of digits of [base] at the start of [s], as a
    number (the conversions ignore where it ends: [endptr] is NULL). *)
Fixpoint digits (base : Z) (acc : Z) (s : string) : Z :=
  match s with
  | String c r =>
      match digit_in base c with
      | Some d => digits base (acc * base + d) r
      | None => acc
      end
  | EmptyString => acc
  end.

(** The optional [0x] of base 16 is taken only before a hex digit. *)
Definition skip_0x (base : Z) (s : string) : string :=
  match s with
  | String z (String x (String h r)) =>
      if (base =? 16) && Ascii.eqb z "0"%char
         && (Ascii.eqb x "x"%char || Ascii.eqb x "X"%char)
         && bool_decide (is_Some (digit_in 16 h))
      then String h r else s
  | _ => s
  end.

(** Sign and magnitude of the subject sequence of the [strto*]
    family: white space, an optional sign, an optional prefix, and
    digits.  No digits at all gives magnitude 0. *)
Definition subject (base : Z) (s : string) : bool * Z :=
  let s := skip_space s in
  let '(neg, s) :=
    match s with
    | String c r =>
        if Ascii.eqb c "-"%char then (true, r)
        else if Ascii.eqb c "+"%char then (false, r)
        else (false, s)
    | EmptyString => (false, s)
    end in
  (neg, digits base 0 (skip_0x base s)).

(** [long] and [unsigned long] are 64 bits wide (LP64), [int] is 32. *)
Definition ULLONG_MAX : Z := 2 ^ 64 - 1.
Definition LONG_MAX : Z := 2 ^ 63 - 1.
Definition LONG_MIN : Z := - 2 ^ 63.

Definition strtoull (s : string) (base : Z) : Z :=
  let '(neg, n) := subject base s in
  if n >? ULLONG_MAX then ULLONG_MAX
  else if neg then (- n) mod 2 ^ 64 else n.

Definition strtoul (s : string) (base : Z) : Z := strtoull s base.

Definition strtol (s : string) (base : Z) : Z :=
  let '(neg, n) := subject base s in
  let v := if neg then - n else n in
  if v >? LONG_MAX then LONG_MAX
  else if v <? LONG_MIN then LONG_MIN else v.

(** Conversion of an integer to [int] and to [u_int32_t]. *)
Definition to_int (v : Z) : Z := (v + 2 ^ 31) mod 2 ^ 32 - 2 ^ 31.
Definition to_u32 (v : Z) : Z := v mod 2 ^ 32.
Definition to_u64 (v : Z) : Z := v mod 2 ^ 64.

(** [atoi(s)] is [(int) strtol(s, NULL, 10)]. *)
Definition atoi (s : string) : Z := to_int (strtol s 10).

(** [fgets(buffer, size, f)] on the unread part of a stream: at most
    [size - 1] characters, ending after a newline.  [chunk room s]
    reads with [room] characters of space left. *)
Fixpoint chunk (room : nat) (s : string) : string * string :=
  match room, s with
  | S room', String c r =>
      if Ascii.eqb c LF then (String c EmptyString, r)
      else let '(l, k) := chunk room' r in (String c l, k)
  | _, _ => (EmptyString, s)
  end.

Definition fgets (size : nat) (stream : string) : option (string * string) :=
  match stream with
  | EmptyString => None
  | _ => Some (chunk (Nat.pred size) stream)
  end.

End CLib.

(** The successive results of [fgets(buffer, cap + 1, f)] until it
    returns NULL, in one pass over the stream; [room] is the space left
    in the chunk being read. *)
Fixpoint fgets_lines (cap room : nat) (stream : string) : list string :=
  match stream with
  | EmptyString => []
  | String c r =>
      if Ascii.eqb c CLib.LF || Nat.leb room 1
      then String c EmptyString :: fgets_lines cap cap r
      else match fgets_lines cap (Nat.pred room) r with
           | [] => [String c EmptyString]
           | l :: ls => String c l :: ls
           end
  end.

(** ** The two interval containers *)

(** Modelled from the spec: [processor/range_map-inl.h] is not among the
    sources.  Section 4.1: [store] inserts when no stored interval
    overlaps the half-open [base, base + size) and otherwise fails and
    leaves the map unchanged; [retrieve] returns the value whose
    interval contains the address. *)
Module RangeMap.

Definition t (A : Type) : Type := list (Z * Z * A).

Definition empty {A} : t A := [].

(** Two half-open intervals share a point. *)
Definition overlaps (b1 s1 b2 s2 : Z) : bool :=
  Z.max b1 b2 <? Z.min (b1 + s1) (b2 + s2).

Definition covers (base size address : Z) : bool :=
  (base <=? address) && (address <? base + size).

Definition StoreRange {A} (m : t A) (base size : Z) (entry : A)
  : bool * t A :=
  if existsb (fun '(b, s, _) => overlaps b s base size) m
  then (false, m)
  else (true, m ++ [(base, size, entry)]).

Definition RetrieveRange {A} (m : t A) (address : Z) : option A :=
  match List.find (fun '(b, s, _) => covers b s address) m with
  | Some (_, _, entry) => Some entry
  | None => None
  end.

End RangeMap.

(** Modelled from the spec: [processor/contained_range_map-inl.h] is not
    among the sources.  Section 4.2: [store] descends into the interval
    that fully contains the new one and inserts it as a child of the
    deepest such interval, inserts at a level where it is disjoint from
    every interval, and fails without mutation on a partial overlap;
    [retrieve] descends through the intervals containing the address and
    returns the innermost value. *)
Module ContainedRangeMap.

#[warnings="-register-all"]
Inductive node (A : Type) : Type :=
| Node (base size : Z) (entry : A) (children : list (node A)).
Arguments Node {A} base size entry children.

Definition t (A : Type) : Type := list (node A).

Definition empty {A} : t A := [].

Definition node_base {A} (n : node A) : Z :=
  match n with Node b _ _ _ => b end.
Definition node_size {A} (n : node A) : Z :=
  match n with Node _ s _ _ => s end.

(** The interval of [n] fully contains [base, base + size). *)
Definition contains {A} (base size : Z) (n : node A) : bool :=
  (node_base n <=? base) && (base + size <=? node_base n + node_size n).

Definition disjoint {A} (base size : Z) (n : node A) : bool :=
  negb (RangeMap.overlaps (node_base n) (node_size n) base size).

(** One nesting level: [descend] stores into the first interval that
    contains the new one. *)
Definition store_level {A} (base size : Z) (entry : A)
    (descend : node A -> option (node A)) (level : list (node A))
  : option (list (node A)) :=
  if existsb (contains base size) level then
    (fix into (l : list (node A)) : option (list (node A)) :=
       match l with
       | [] => None
       | c :: r =>
           if contains base size c
           then match descend c with
                | Some c' => Some (c' :: r)
                | None => None
                end
           else match into r with
                | Some r' => Some (c :: r')
                | None => None
                end
       end) level
  else if forallb (disjoint base size) level
  then Some (level ++ [Node base size entry []])
  else None.

Fixpoint store_node {A} (base size : Z) (entry : A) (n : node A)
  : option (node A) :=
  match n with
  | Node b s e children =>
      match store_level base size entry (store_node base size entry)
              children with
      | Some children' => Some (Node b s e children')
      | None => None
      end
  end.

Definition StoreRange {A} (m : t A) (base size : Z) (entry : A)
  : bool * t A :=
  match store_level base size entry (store_node base size entry) m with
  | Some m' => (true, m')
  | None => (false, m)
  end.

Definition retrieve_level {A} (address : Z)
    (descend : node A -> A) (level : list (node A)) : option A :=
  (fix first (l : list (node A)) : option A :=
     match l with
     | [] => None
     | c :: r =>
         if RangeMap.covers (node_base c) (node_size c) address
         then Some (descend c) else first r
     end) level.

Fixpoint retrieve_node {A} (address : Z) (n : node A) : A :=
  match n with
  | Node _ _ e children =>
      match retrieve_level address (retrieve_node address) children with
      | Some inner => inner
      | None => e
      end
  end.

Definition RetrieveRange {A} (m : t A) (address : Z) : option A :=
  retrieve_level address (retrieve_node address) m.

End ContainedRangeMap.

(** ** The data of the resolver *)

Module Line.
Record t : Type := mk {
  address : Z;
  size : Z;
  source_file_id : Z;
  line : Z
}.
End Line.

Module Function.
Record t : Type := mk {
  name : string;
  address : Z;
  size : Z;
  lines : RangeMap.t Line.t
}.

Definition set_lines (f : t) (l : RangeMap.t Line.t) : t :=
  {| name := name f; address := address f; size := size f; lines := l |}.
End Function.

(** Modelled from the spec: [processor/stack_frame_info.h] is not among
    the sources.  Section 3: the six sizes, the unwind program and the
    [valid] flag, which the constructor with arguments sets and the
    default constructor leaves clear. *)
Module StackFrameInfo.
Record t : Type := mk {
  prolog_size : Z;
  epilog_size : Z;
  parameter_size : Z;
  saved_register_size : Z;
  local_size : Z;
  max_stack_size : Z;
  program_string : string;
  valid : bool
}.

Definition make (prolog epilog parameter saved_register local max_stack : Z)
    (program : string) : t :=
  mk prolog epilog parameter saved_register local max_stack program true.

Definition default : t := mk 0 0 0 0 0 0 "" false.
End StackFrameInfo.

(** Modelled from the spec: [google/stack_frame.h] is not among the
    sources.  Section 3: the three inputs and the three outputs of a
    frame; the field names are the ones the resolver uses. *)
Module StackFrame.
Record t : Type := mk {
  module_name : string;
  module_base : Z;
  instruction : Z;
  function_name : string;
  source_file_name : string;
  source_line : Z
}.

Definition set_function_name (f : t) (n : string) : t :=
  mk (module_name f) (module_base f) (instruction f)
     n (source_file_name f) (source_line f).
Definition set_source_file_name (f : t) (n : string) : t :=
  mk (module_name f) (module_base f) (instruction f)
     (function_name f) n (source_line f).
Definition set_source_line (f : t) (l : Z) : t :=
  mk (module_name f) (module_base f) (instruction f)
     (function_name f) (source_file_name f) l.
End StackFrame.

(** The indices of [stack_info_] ([enum StackInfoTypes]). *)
Definition STACK_INFO_FPO : Z := 0.
Definition STACK_INFO_TRAP : Z := 1.
Definition STACK_INFO_TSS : Z := 2.
Definition STACK_INFO_STANDARD : Z := 3.
Definition STACK_INFO_FRAME_DATA : Z := 4.
Definition STACK_INFO_LAST : Z := 5.

(** [class SourceLineResolver::Module].  A [Function*] is an index into
    [objects], the [Function]s that the handles of the function index
    keep alive: [functions_] holds such pointers, and so does [cur_func]
    while the module is loaded, so a line stored through [cur_func] is
    seen through the index too.  A pointer with no object in [objects]
    dangles: its [Function] has been destroyed.  [dangling_write]
    records that a line was stored through such a pointer; from there
    on the behaviour of the program is undefined, and the other fields
    only say what the module held before. *)
Record ModuleObj : Type := mkModule {
  name_ : string;
  files_ : gmap Z string;
  functions_ : RangeMap.t nat;
  stack_info_ : list (ContainedRangeMap.t StackFrameInfo.t);
  objects : list Function.t;
  dangling_write : bool
}.

Definition new_Module (name : string) : ModuleObj :=
  {| name_ := name;
     files_ := ∅;
     functions_ := RangeMap.empty;
     stack_info_ := replicate (Z.to_nat STACK_INFO_LAST) ContainedRangeMap.empty;
     objects := [];
     dangling_write := false |}.

Definition set_files (m : ModuleObj) (f : gmap Z string) : ModuleObj :=
  mkModule (name_ m) f (functions_ m) (stack_info_ m) (objects m)
    (dangling_write m).
Definition set_functions (m : ModuleObj) (f : RangeMap.t nat) : ModuleObj :=
  mkModule (name_ m) (files_ m) f (stack_info_ m) (objects m)
    (dangling_write m).
Definition set_stack_info (m : ModuleObj)
    (s : list (ContainedRangeMap.t StackFrameInfo.t)) : ModuleObj :=
  mkModule (name_ m) (files_ m) (functions_ m) s (objects m)
    (dangling_write m).
Definition set_objects (m : ModuleObj) (o : list Function.t) : ModuleObj :=
  mkModule (name_ m) (files_ m) (functions_ m) (stack_info_ m) o
    (dangling_write m).
Definition set_dangling_write (m : ModuleObj) : ModuleObj :=
  mkModule (name_ m) (files_ m) (functions_ m) (stack_info_ m) (objects m)
    true.

(** [stack_info_[type]], for an index the caller has checked. *)
Definition stack_info_at (m : ModuleObj) (type : Z)
  : ContainedRangeMap.t StackFrameInfo.t :=
  default ContainedRangeMap.empty (stack_info_ m !! Z.to_nat type).

(** ** The tokenizer *)

(** The delimiter sets [" \r\n"] and ["\r\n"]. *)
Definition space_cr_lf : string :=
  String CLib.SP (String CLib.CR (String CLib.LF EmptyString)).
Definition cr_lf : string := String CLib.CR (String CLib.LF EmptyString).

(** The [while] loop of [Tokenize]; it runs at most [max_tokens] times,
    which is what [fuel] counts. *)
Fixpoint Tokenize_loop (fuel : nat) (remaining : Z) (token : option string)
    (saved : string) (tokens : list string)
  : Z * option string * string * list string :=
  match token with
  | None => (remaining, token, saved, tokens)
  | Some t =>
      let remaining := remaining - 1 in
      if remaining >? 0 then
        match fuel with
        | O => (remaining, token, saved, tokens)
        | S fuel' =>
            let tokens := tokens ++ [t] in
            if remaining >? 1 then
              let '(token', saved') := CLib.strtok space_cr_lf saved in
              Tokenize_loop fuel' remaining token' saved' tokens
            else Tokenize_loop fuel' remaining token saved tokens
        end
      else (remaining, token, saved, tokens)
  end.

(** The last token, which [strtok] cuts off what is left of the line
    at a carriage return or newline. *)
Definition cut (saved : string) : option string :=
  fst (CLib.strtok cr_lf saved).

(** The [if] behind the loop.  [!remaining > 0] is [(!remaining) > 0],
    true exactly when [remaining] is 0. *)
Definition after_loop (r : Z * option string * string * list string)
  : list string :=
  let '(remaining, _, saved, tokens) := r in
  if remaining =? 0 then
    match cut saved with
    | Some token => tokens ++ [token]
    | None => tokens
    end
  else tokens.

(** [Tokenize(line, max_tokens, &tokens)]: the result and the tokens. *)
Definition Tokenize (line : string) (max_tokens : Z) : bool * list string :=
  let '(token, saved) := CLib.strtok space_cr_lf line in
  let tokens :=
    after_loop
      (Tokenize_loop (Z.to_nat max_tokens) max_tokens token saved []) in
  (Z.of_nat (length tokens) =? CLib.to_u32 max_tokens, tokens).

(** [tokens[i]]. *)
Definition tok (tokens : list string) (i : nat) : string :=
  default EmptyString (tokens !! i).

(** ** The record parsers *)

(** [ParseFile]: [hash_map::insert] keeps an entry that is already
    there. *)
Definition ParseFile (m : ModuleObj) (file_line : string) : ModuleObj :=
  let file_line := CLib.advance 5 file_line in
  let '(ok, tokens) := Tokenize file_line 2 in
  if negb ok then m
  else
    let index := CLib.atoi (tok tokens 0) in
    if index <? 0 then m
    else
      let filename := tok tokens 1 in
      match files_ m !! index with
      | Some _ => m
      | None => set_files m (<[index := filename]> (files_ m))
      end.

(** [ParseFunction]: [None] is the NULL result. *)
Definition ParseFunction (function_line : string) : option Function.t :=
  let function_line := CLib.advance 5 function_line in
  let '(ok, tokens) := Tokenize function_line 3 in
  if negb ok then None
  else
    let address := CLib.strtoull (tok tokens 0) 16 in
    let size := CLib.strtoull (tok tokens 1) 16 in
    let name := tok tokens 2 in
    Some (Function.mk name address size RangeMap.empty).

(** [ParseLine]: [None] is the NULL result. *)
Definition ParseLine (line_line : string) : option Line.t :=
  let '(ok, tokens) := Tokenize line_line 4 in
  if negb ok then None
  else
    let address := CLib.strtoull (tok tokens 0) 16 in
    let size := CLib.strtoull (tok tokens 1) 16 in
    let line_number := CLib.atoi (tok tokens 2) in
    let source_file := CLib.atoi (tok tokens 3) in
    if line_number <=? 0 then None
    else Some (Line.mk address size source_file line_number).

(** [ParseStackInfo]: the result of [StoreRange] is not looked at. *)
Definition ParseStackInfo (m : ModuleObj) (stack_info_line : string)
  : bool * ModuleObj :=
  let stack_info_line := CLib.advance 6 stack_info_line in
  let '(ok, tokens) := Tokenize stack_info_line 11 in
  if negb ok then (false, m)
  else
    let platform := tok tokens 0 in
    if negb (String.eqb platform "WIN") then (false, m)
    else
      let type := CLib.to_int (CLib.strtol (tok tokens 1) 16) in
      if (type <? 0) || (type >? STACK_INFO_LAST - 1) then (false, m)
      else
        let rva := CLib.strtoull (tok tokens 2) 16 in
        let code_size := CLib.strtoull (tok tokens 3) 16 in
        let prolog_size := CLib.to_u32 (CLib.strtoul (tok tokens 4) 16) in
        let epilog_size := CLib.to_u32 (CLib.strtoul (tok tokens 5) 16) in
        let parameter_size := CLib.to_u32 (CLib.strtoul (tok tokens 6) 16) in
        let saved_register_size :=
          CLib.to_u32 (CLib.strtoul (tok tokens 7) 16) in
        let local_size := CLib.to_u32 (CLib.strtoul (tok tokens 8) 16) in
        let max_stack_size := CLib.to_u32 (CLib.strtoul (tok tokens 9) 16) in
        let program_string := tok tokens 10 in
        let '(_, stored) :=
          ContainedRangeMap.StoreRange (stack_info_at m type) rva code_size
            (StackFrameInfo.make prolog_size epilog_size parameter_size
               saved_register_size local_size max_stack_size
               program_string) in
        (true, set_stack_info m (<[Z.to_nat type := stored]> (stack_info_ m))).

(** ** Loading a symbol file *)

(** [func->lines.StoreRange(line->address, line->size, line)] on the
    object [func], whatever [StoreRange] answers. *)
Definition store_line (line : Line.t) (func : Function.t) : Function.t :=
  Function.set_lines func
    (snd (RangeMap.StoreRange (Function.lines func)
            (Line.address line) (Line.size line) line)).

(** Modelled from the spec: [processor/linked_ptr.h] is not among the
    sources.  Section 9: a [linked_ptr] is a reference-counted handle,
    so an object goes with its last handle.  The objects alive once the
    temporary handle of a new [Function] has been offered to the index:
    the index takes a handle of its own when it stores the range, and
    when it refuses it the object is destroyed with the temporary. *)
Definition kept_alive (stored : bool) (objects : list Function.t)
    (func : Function.t) : list Function.t :=
  if stored then objects ++ [func] else objects.

(** One turn of the [while] loop of [LoadMap] on the line in [buffer]:
    [None] is [return false], otherwise the module and [cur_func] as
    the turn leaves them.  [cur_func] is a plain pointer: after a FUNC
    record that the index refused it dangles, and a line record read
    then is stored through the dangling pointer. *)
Definition LoadMap_step (m : ModuleObj) (cur_func : option nat)
    (buffer : string) : option (ModuleObj * option nat) :=
  if CLib.starts_with "FILE " buffer then
    Some (ParseFile m buffer, cur_func)
  else if CLib.starts_with "STACK " buffer then
    let '(ok, m') := ParseStackInfo m buffer in
    if ok then Some (m', cur_func) else None
  else if CLib.starts_with "FUNC " buffer then
    match ParseFunction buffer with
    | None => None
    | Some f =>
        let p := length (objects m) in
        let '(stored, index) :=
          RangeMap.StoreRange (functions_ m)
            (Function.address f) (Function.size f) p in
        Some (set_functions
                (set_objects m (kept_alive stored (objects m) f)) index,
              Some p)
    end
  else
    match cur_func with
    | None => None
    | Some p =>
        match ParseLine buffer with
        | None => None
        | Some line =>
            match objects m !! p with
            | Some _ =>
                Some (set_objects m (alter (store_line line) p (objects m)),
                      cur_func)
            | None => Some (set_dangling_write m, cur_func)
            end
        end
    end.

(** The loop over the lines that [fgets] delivers.  The result is
    [false] when a turn returned from [LoadMap], together with the
    module as built up to then. *)
Fixpoint LoadMap_loop (m : ModuleObj) (cur_func : option nat)
    (lines : list string) : bool * ModuleObj :=
  match lines with
  | [] => (true, m)
  | buffer :: rest =>
      match LoadMap_step m cur_func buffer with
      | None => (false, m)
      | Some (m', cur_func') => LoadMap_loop m' cur_func' rest
      end
  end.

(** What the program sees of its environment: the readable files by
    path, and the number of [FILE*] handles it holds open. *)
Record World : Type := mkWorld {
  disk : gmap string string;
  open_handles : nat
}.

Definition fopen (w : World) (path : string) : option string * World :=
  match disk w !! path with
  | Some content => (Some content, mkWorld (disk w) (S (open_handles w)))
  | None => (None, w)
  end.

Definition fclose (w : World) : World :=
  mkWorld (disk w) (Nat.pred (open_handles w)).

(** [sizeof(buffer)]. *)
Definition buffer_size : nat := 1024.

(** The lines the loop of [LoadMap] works on: each [fgets] result, read
    as a C string. *)
Definition buffers (content : string) : list string :=
  map CLib.c_str
      (fgets_lines (Nat.pred buffer_size) (Nat.pred buffer_size) content).

(** [Module::LoadMap]: [fclose] is reached only when the loop ends. *)
Definition LoadMap (w : World) (m : ModuleObj) (map_file : string)
  : bool * ModuleObj * World :=
  match fopen w map_file with
  | (None, w) => (false, m, w)
  | (Some content, w) =>
      match LoadMap_loop m None (buffers content) with
      | (false, m') => (false, m', w)
      | (true, m') => (true, m', fclose w)
      end
  end.

(** ** Looking an address up *)

(** The three probes of [stack_info_], each one made only when the one
    before found nothing; [frame_info] is overwritten by the probe that
    finds a range. *)
Definition probe_stack_info (m : ModuleObj) (address : Z)
    (frame_info : StackFrameInfo.t) : StackFrameInfo.t :=
  match ContainedRangeMap.RetrieveRange
          (stack_info_at m STACK_INFO_FRAME_DATA) address with
  | Some info => info
  | None =>
      match ContainedRangeMap.RetrieveRange
              (stack_info_at m STACK_INFO_FPO) address with
      | Some info => info
      | None =>
          match ContainedRangeMap.RetrieveRange
                  (stack_info_at m STACK_INFO_STANDARD) address with
          | Some info => info
          | None => frame_info
          end
      end
  end.

(** [Module::LookupAddress].  [frame_info] is [None] for a NULL
    pointer. *)
Definition LookupAddress (m : ModuleObj) (address : Z)
    (frame : StackFrame.t) (frame_info : option StackFrameInfo.t)
  : StackFrame.t * option StackFrameInfo.t :=
  let frame_info :=
    match frame_info with
    | Some info => Some (probe_stack_info m address info)
    | None => None
    end in
  match RangeMap.RetrieveRange (functions_ m) address with
  | None => (frame, frame_info)
  | Some p =>
      match objects m !! p with
      | None => (frame, frame_info)
      | Some func =>
          let frame := StackFrame.set_function_name frame (Function.name func) in
          match RangeMap.RetrieveRange (Function.lines func) address with
          | None => (frame, frame_info)
          | Some line =>
              let frame :=
                match files_ m !! Line.source_file_id line with
                | Some file => StackFrame.set_source_file_name frame file
                | None => frame
                end in
              (StackFrame.set_source_line frame (Line.line line), frame_info)
          end
      end
  end.

(** ** The resolver *)

(** [modules_]. *)
Abbreviation ModuleMap := (gmap string ModuleObj).

(** [SourceLineResolver::LoadModule]: a module that fails to load is
    deleted, and [modules_] is as it was. *)
Definition LoadModule (w : World) (modules : ModuleMap)
    (module_name map_file : string) : bool * ModuleMap * World :=
  match modules !! module_name with
  | Some _ => (false, modules, w)
  | None =>
      match LoadMap w (new_Module module_name) map_file with
      | (false, _, w) => (false, modules, w)
      | (true, module, w) => (true, <[module_name := module]> modules, w)
      end
  end.

Definition HasModule (modules : ModuleMap) (module_name : string) : bool :=
  bool_decide (is_Some (modules !! module_name)).

(** [SourceLineResolver::FillSourceLineInfo]: the subtraction is one of
    [u_int64_t]. *)
Definition FillSourceLineInfo (modules : ModuleMap)
    (frame : StackFrame.t) (frame_info : option StackFrameInfo.t)
  : StackFrame.t * option StackFrameInfo.t :=
  match modules !! StackFrame.module_name frame with
  | Some module =>
      LookupAddress module
        (CLib.to_u64 (StackFrame.instruction frame
                      - StackFrame.module_base frame))
        frame frame_info
  | None => (frame, frame_info)
  end.

(** ** The tokenizing rule as the specification words it *)

Module TokenRule.

(** The separators: space, carriage return and newline. *)
Definition is_separator (c : ascii) : bool :=
  Ascii.eqb c CLib.SP || Ascii.eqb c CLib.CR || Ascii.eqb c CLib.LF.

Definition is_newline (c : ascii) : bool :=
  Ascii.eqb c CLib.CR || Ascii.eqb c CLib.LF.

Fixpoint all_newline (s : string) : bool :=
  match s with
  | EmptyString => true
  | String c r => is_newline c && all_newline r
  end.

(** A record line: text free of carriage returns and newlines,
    followed by the newline character or combination that ends it, if
    any.  This is the contract [Tokenize] documents for [line]. *)
Fixpoint record_line (s : string) : bool :=
  match s with
  | EmptyString => true
  | String c r => if is_newline c then all_newline r else record_line r
  end.

(** A word and the remainder of the line behind the separator that
    ends it. *)
Fixpoint take_word (s : string) : string * string :=
  match s with
  | EmptyString => (EmptyString, EmptyString)
  | String c r =>
      if is_separator c then (EmptyString, r)
      else (String c (fst (take_word r)), snd (take_word r))
  end.

(** The next token past a run of separators. *)
Fixpoint next_token (s : string) : option (string * string) :=
  match s with
  | EmptyString => None
  | String c r => if is_separator c then next_token r else Some (take_word s)
  end.

(** The text without its trailing newline characters. *)
Fixpoint trim_newline (s : string) : string :=
  match s with
  | EmptyString => EmptyString
  | String c r =>
      match trim_newline r with
      | EmptyString => if is_newline c then EmptyString else String c EmptyString
      | r' => String c r'
      end
  end.

(** Up to [n] tokens: the first [n - 1] are split off at runs of
    separators, and [final] makes the last one of what remains of the
    line, which is not split any further. *)
Fixpoint tokens_with (final : string -> option string) (n : nat)
    (s : string) : list string :=
  match n with
  | O => []
  | S O =>
      match final s with
      | Some t => [t]
      | None => []
      end
  | S n' =>
      match next_token s with
      | None => []
      | Some (t, remainder) => t :: tokens_with final n' remainder
      end
  end.

(** The remainder, trimmed of the trailing newline; nothing is left
    of an empty one. *)
Definition trimmed (s : string) : option string :=
  match trim_newline s with
  | EmptyString => None
  | t => Some t
  end.

Definition tokens : nat -> string -> list string := tokens_with trimmed.

(** A word: text that is not empty and holds no separator. *)
Fixpoint no_separator (s : string) : bool :=
  match s with
  | EmptyString => true
  | String c r => negb (is_separator c) && no_separator r
  end.

Definition word (w : string) : bool :=
  match w with
  | EmptyString => false
  | _ => no_separator w
  end.

Fixpoint no_newline (s : string) : bool :=
  match s with
  | EmptyString => true
  | String c r => negb (is_newline c) && no_newline r
  end.

(** The words, each followed by one space, and then [last]. *)
Definition spaced (words : list string) (last : string) : string :=
  fold_right (fun w s => String.append w (String CLib.SP s)) last words.

End TokenRule.

(** ** Vocabulary of the statements *)

(** The kind of record [LoadMap] takes a line for, by its prefix. *)
Inductive RecordKind : Type :=
| FILE_record | STACK_record | FUNC_record | line_record.

Definition record_kind (buffer : string) : RecordKind :=
  if CLib.starts_with "FILE " buffer then FILE_record
  else if CLib.starts_with "STACK " buffer then STACK_record
  else if CLib.starts_with "FUNC " buffer then FUNC_record
  else line_record.

(** The prefix each parser skips and the number of tokens it asks
    [Tokenize] for. *)
Definition prefix_length (k : RecordKind) : nat :=
  match k with
  | FILE_record | FUNC_record => 5
  | STACK_record => 6
  | line_record => 0
  end.

Definition token_count (k : RecordKind) : Z :=
  match k with
  | FILE_record => 2
  | STACK_record => 11
  | FUNC_record => 3
  | line_record => 4
  end.

Definition record_tokens (buffer : string) : bool * list string :=
  let k := record_kind buffer in
  Tokenize (CLib.advance (prefix_length k) buffer) (token_count k).

(** The [type] of a STACK record, as [ParseStackInfo] reads it. *)
Definition stack_type (tokens : list string) : Z :=
  CLib.to_int (CLib.strtol (tok tokens 1) 16).

(** The structural format errors of a record that is not a FILE
    record, with [cur_func] as the loop has it when the line is read. *)
Inductive structural_error (cur_func : option nat) (buffer : string) : Prop :=
| too_few_tokens :
    record_kind buffer <> FILE_record ->
    fst (record_tokens buffer) = false ->
    structural_error cur_func buffer
| platform_not_WIN :
    record_kind buffer = STACK_record ->
    tok (snd (record_tokens buffer)) 0 <> "WIN" ->
    structural_error cur_func buffer
| type_out_of_range :
    record_kind buffer = STACK_record ->
    stack_type (snd (record_tokens buffer)) < 0
    \/ STACK_INFO_LAST - 1 < stack_type (snd (record_tokens buffer)) ->
    structural_error cur_func buffer
| line_number_not_positive :
    record_kind buffer = line_record ->
    CLib.atoi (tok (snd (record_tokens buffer)) 2) <= 0 ->
    structural_error cur_func buffer
| no_current_function :
    record_kind buffer = line_record ->
    cur_func = None ->
    structural_error cur_func buffer.

(** The turns of the loop on [lines], when none of them returns. *)
Fixpoint LoadMap_steps (m : ModuleObj) (cur_func : option nat)
    (lines : list string) : option (ModuleObj * option nat) :=
  match lines with
  | [] => Some (m, cur_func)
  | buffer :: rest =>
      match LoadMap_step m cur_func buffer with
      | None => None
      | Some (m', cur_func') => LoadMap_steps m' cur_func' rest
      end
  end.

(** Every pointer of the function index designates an object. *)
Definition index_valid (m : ModuleObj) : Prop :=
  forall base size p,
    In (base, size, p) (functions_ m) -> (p < length (objects m))%nat.

(** The order of preference among the maps of [stack_info_], and the
    first of them that has a range for the address. *)
Definition probe_order : list Z :=
  [STACK_INFO_FRAME_DATA; STACK_INFO_FPO; STACK_INFO_STANDARD].

Definition first_found (m : ModuleObj) (address : Z)
  : option StackFrameInfo.t :=
  head (omap (fun type =>
                ContainedRangeMap.RetrieveRange (stack_info_at m type) address)
             probe_order).

(** A symbol file of the given records, one to a line. *)
Definition end_of_line : string := String CLib.LF EmptyString.

Definition symbol_file (records : list string) : string :=
  fold_right (fun r s => String.append r (String.append end_of_line s))
    EmptyString records.

(** The symbol file of the example of section 8. *)
Definition example_records : list string :=
  ["FILE 0 a.c";
   "FUNC 1000 10 foo";
   "1000 5 42 0";
   "STACK WIN 4 1000 10 0 0 0 0 0 0 prog"].

(** A world with one symbol file of the given records, and nothing
    open. *)
Definition world_with (path : string) (records : list string) : World :=
  mkWorld {[ path := symbol_file records ]} 0.

Definition empty_frame (module_name : string) (base instruction : Z)
  : StackFrame.t :=
  StackFrame.mk module_name base instruction "" "" 0.

(** A record as [fgets] delivers it, and the module that the loop of
    [LoadMap] builds from a file of records. *)
Definition record (text : string) : string := String.append text end_of_line.

Definition loaded (name : string) (records : list string) : ModuleObj :=
  snd (LoadMap_loop (new_Module name) None (buffers (symbol_file records))).

(** The range and the entry of a STACK record, as [ParseStackInfo]
    reads them off its tokens. *)
Definition stack_rva (tokens : list string) : Z :=
  CLib.strtoull (tok tokens 2) 16.

Definition stack_code_size (tokens : list string) : Z :=
  CLib.strtoull (tok tokens 3) 16.

Definition stack_frame_info (tokens : list string) : StackFrameInfo.t :=
  StackFrameInfo.make
    (CLib.to_u32 (CLib.strtoul (tok tokens 4) 16))
    (CLib.to_u32 (CLib.strtoul (tok tokens 5) 16))
    (CLib.to_u32 (CLib.strtoul (tok tokens 6) 16))
    (CLib.to_u32 (CLib.strtoul (tok tokens 7) 16))
    (CLib.to_u32 (CLib.strtoul (tok tokens 8) 16))
    (CLib.to_u32 (CLib.strtoul (tok tokens 9) 16))
    (tok tokens 10).

(** A module with one function and one stack record, for the examples
    of records that conflict with what is stored. *)
Definition stored_records : list string :=
  ["FUNC 1000 10 foo"; "STACK WIN 4 4242 1a a 0 0 0 0 0 x"].

(** The relative address of a frame whose instruction lies below its
    module base wraps around. *)
Definition wrapped_difference (instruction module_base : Z) : Z :=
  if instruction <? module_base
  then instruction - module_base + 2 ^ 64
  else instruction - module_base.

(** A symbol file whose second FUNC record overlaps the first and is
    followed by a line record. *)
Definition refused_function_records : list string :=
  ["FUNC 1000 10 foo"; "FUNC 1008 10 bar"; "1008 4 7 0"].

(** ** Further vocabulary: lines, chunks and invariants of a load *)

(** A line of separators only. *)
Fixpoint blank_line (s : string) : bool :=
  match s with
  | EmptyString => true
  | String c r => TokenRule.is_separator c && blank_line r
  end.

(** The chunks put back end to end. *)
Definition concat_lines (chunks : list string) : string :=
  fold_right String.append EmptyString chunks.

(** A newline, if there is one, is the last character. *)
Fixpoint newline_last (s : string) : bool :=
  match s with
  | EmptyString => true
  | String c r =>
      if Ascii.eqb c CLib.LF
      then match r with EmptyString => true | _ => false end
      else newline_last r
  end.

(** Every line stored in an object of the module has a positive line
    number that fits an [int]. *)
Definition lines_positive (m : ModuleObj) : Prop :=
  forall func base size line,
    In func (objects m) ->
    In (base, size, line) (Function.lines func) ->
    0 < Line.line line < 2 ^ 31.

(** Every id of the file table is a non-negative [int]. *)
Definition file_ids_valid (m : ModuleObj) : Prop :=
  forall id name, files_ m !! id = Some name -> 0 <= id < 2 ^ 31.

(** The file table of [m'] has every entry of the one of [m]. *)
Definition files_kept (m m' : ModuleObj) : Prop :=
  forall id name, files_ m !! id = Some name -> files_ m' !! id = Some name.

(** The chunk being read fits the room left, and the ones behind it
    fit the buffer. *)
Definition chunks_fit (cap room : nat) (chunks : list string) : Prop :=
  match chunks with
  | [] => True
  | l :: ls =>
      (1 <= String.length l <= room)%nat
      /\ Forall (fun l => (1 <= String.length l <= cap)%nat) ls
  end.

(** * Properties *)

(** ** The containers on the examples of section 8 *)

Example RangeMap_boundaries :
  let m := snd (RangeMap.StoreRange RangeMap.empty 0x1000 0x10 7) in
  RangeMap.RetrieveRange m 0x1000 = Some 7
  /\ RangeMap.RetrieveRange m 0x100f = Some 7
  /\ RangeMap.RetrieveRange m 0x1010 = None
  /\ RangeMap.StoreRange m 0x1008 0x10 8 = (false, m).
Proof. repeat split. Qed.

Example ContainedRangeMap_nesting :
  let a := snd (ContainedRangeMap.StoreRange ContainedRangeMap.empty 0 100 1) in
  let b := snd (ContainedRangeMap.StoreRange a 10 10 2) in
  ContainedRangeMap.RetrieveRange b 15 = Some 2
  /\ ContainedRangeMap.RetrieveRange b 5 = Some 1
  /\ ContainedRangeMap.RetrieveRange b 150 = None
  /\ ContainedRangeMap.StoreRange b 15 10 3 = (false, b).
Proof. repeat split. Qed.

(** [fgets_lines] is [fgets] called until it returns NULL. *)
Lemma chunk_fgets_lines cap :
  forall room stream c r,
    stream = String c r -> (1 <= room)%nat ->
    fgets_lines cap room stream
    = fst (CLib.chunk room stream)
      :: fgets_lines cap cap (snd (CLib.chunk room stream)).
Proof.
  intros room stream. revert room.
  induction stream as [|c r IH]; intros room c0 r0 Heq Hroom; [discriminate|].
  destruct room as [|room]; [lia|].
  cbn [fgets_lines CLib.chunk].
  destruct (Ascii.eqb c CLib.LF) eqn:Hc; [reflexivity|]. cbn [orb].
  destruct room as [|room].
  - cbn [Nat.leb CLib.chunk]. destruct r; reflexivity.
  - cbn [Nat.leb Nat.pred].
    destruct r as [|c1 r1].
    + reflexivity.
    + assert (Hr : (1 <= S room)%nat) by lia.
      rewrite (IH (S room) c1 r1 eq_refl Hr).
      destruct (CLib.chunk (S room) (String c1 r1)). reflexivity.
Qed.

Lemma fgets_lines_fgets size stream line rest :
  (2 <= size)%nat ->
  CLib.fgets size stream = Some (line, rest) ->
  fgets_lines (Nat.pred size) (Nat.pred size) stream
  = line :: fgets_lines (Nat.pred size) (Nat.pred size) rest.
Proof.
  intros Hsize. unfold CLib.fgets.
  destruct stream as [|c r]; [discriminate|].
  intros [= Heq].
  assert (Hr : (1 <= Nat.pred size)%nat) by lia.
  rewrite (chunk_fgets_lines _ _ _ c r eq_refl Hr), Heq. reflexivity.
Qed.

Lemma fgets_lines_end size :
  CLib.fgets size EmptyString = None
  /\ fgets_lines (Nat.pred size) (Nat.pred size) EmptyString = [].
Proof. split; reflexivity. Qed.

(** ** The tokenizer against the tokenizing rule *)

Section TokenizeRefinement.

Import TokenRule.

Lemma is_delim_space_cr_lf c : CLib.is_delim space_cr_lf c = is_separator c.
Proof.
  unfold is_separator, space_cr_lf. simpl.
  destruct (Ascii.eqb c CLib.SP), (Ascii.eqb c CLib.CR),
    (Ascii.eqb c CLib.LF); reflexivity.
Qed.

Lemma is_delim_cr_lf c : CLib.is_delim cr_lf c = is_newline c.
Proof.
  unfold is_newline, cr_lf. simpl.
  destruct (Ascii.eqb c CLib.CR), (Ascii.eqb c CLib.LF); reflexivity.
Qed.

Lemma newline_is_separator c : is_newline c = true -> is_separator c = true.
Proof.
  unfold is_newline, is_separator.
  destruct (Ascii.eqb c CLib.SP), (Ascii.eqb c CLib.CR),
    (Ascii.eqb c CLib.LF); simpl; congruence.
Qed.

Lemma span_token_take_word s :
  CLib.span_token space_cr_lf s = take_word s.
Proof.
  induction s as [|c r IH]; cbn [CLib.span_token take_word]; [reflexivity|].
  rewrite is_delim_space_cr_lf, IH.
  destruct (is_separator c); [reflexivity|].
  destruct (take_word r); reflexivity.
Qed.

(** [strtok] with the three separators is [next_token]. *)
Lemma strtok_next_token s :
  CLib.strtok space_cr_lf s =
    match next_token s with
    | Some (t, k) => (Some t, k)
    | None => (None, EmptyString)
    end.
Proof.
  unfold CLib.strtok.
  induction s as [|c r IH]; cbn [CLib.skip_delims next_token]; [reflexivity|].
  rewrite is_delim_space_cr_lf.
  destruct (is_separator c) eqn:Hc; [exact IH|].
  rewrite span_token_take_word.
  destruct (take_word (String c r)); reflexivity.
Qed.

Lemma all_newline_record_line s : all_newline s = true -> record_line s = true.
Proof.
  induction s as [|c r IH]; simpl; [reflexivity|].
  intros [Hc Hr]%andb_prop. rewrite Hc. exact Hr.
Qed.

Lemma record_line_tail c r :
  record_line (String c r) = true -> record_line r = true.
Proof.
  simpl. destruct (is_newline c); [apply all_newline_record_line | trivial].
Qed.

Lemma take_word_record_line s :
  record_line s = true -> record_line (snd (take_word s)) = true.
Proof.
  induction s as [|c r IH]; simpl; [reflexivity|].
  intros H. destruct (is_separator c) eqn:Hc; simpl.
  - destruct (is_newline c); [apply all_newline_record_line|]; exact H.
  - destruct (is_newline c) eqn:Hn.
    + apply newline_is_separator in Hn. congruence.
    + apply IH, H.
Qed.

(** The remainder behind a token of a record line is one too. *)
Lemma next_token_record_line s t k :
  record_line s = true -> next_token s = Some (t, k) ->
  record_line k = true.
Proof.
  induction s as [|c r IH]; simpl; [discriminate|].
  intros H. destruct (is_separator c) eqn:Hc.
  - apply IH. destruct (is_newline c); [apply all_newline_record_line|]; exact H.
  - intros [= <- <-].
    pose proof (take_word_record_line (String c r)) as Hw.
    simpl in Hw. rewrite Hc in Hw. apply Hw, H.
Qed.

Lemma trim_all_newline s : all_newline s = true -> trim_newline s = EmptyString.
Proof.
  induction s as [|c r IH]; simpl; [reflexivity|].
  intros [Hc Hr]%andb_prop. rewrite (IH Hr), Hc. reflexivity.
Qed.

Lemma skip_all_newline s :
  all_newline s = true -> CLib.skip_delims cr_lf s = EmptyString.
Proof.
  induction s as [|c r IH]; cbn [CLib.skip_delims all_newline]; [reflexivity|].
  intros [Hc Hr]%andb_prop. rewrite is_delim_cr_lf, Hc. exact (IH Hr).
Qed.

Lemma trim_not_newline c r :
  is_newline c = false -> trim_newline (String c r) = String c (trim_newline r).
Proof. intros H. simpl. rewrite H. destruct (trim_newline r); reflexivity. Qed.

Lemma span_newline_trim s :
  record_line s = true -> fst (CLib.span_token cr_lf s) = trim_newline s.
Proof.
  induction s as [|c r IH]; [reflexivity|].
  intros H. cbn [CLib.span_token]. rewrite is_delim_cr_lf.
  destruct (is_newline c) eqn:Hc.
  - simpl in H. rewrite Hc in H. simpl. rewrite (trim_all_newline _ H), Hc.
    reflexivity.
  - rewrite (trim_not_newline _ _ Hc), <- IH by exact (record_line_tail _ _ H).
    destruct (CLib.span_token cr_lf r); reflexivity.
Qed.

(** On the remainder of a record line, [strtok] with the two newline
    characters yields the remainder without its trailing newline. *)
Lemma strtok_final s :
  record_line s = true -> cut s = trimmed s.
Proof.
  unfold cut, CLib.strtok, trimmed. destruct s as [|c r]; [reflexivity|].
  intros H. cbn [CLib.skip_delims]. rewrite is_delim_cr_lf.
  destruct (is_newline c) eqn:Hc.
  - simpl in H. rewrite Hc in H.
    rewrite (skip_all_newline _ H). simpl.
    rewrite (trim_all_newline _ H), Hc. reflexivity.
  - pose proof (span_newline_trim _ H) as Hs.
    rewrite (trim_not_newline _ _ Hc) in *.
    destruct (CLib.span_token cr_lf (String c r)) as [t k].
    simpl in Hs. subst t. reflexivity.
Qed.

Lemma Tokenize_loop_exit fuel t saved acc :
  Tokenize_loop fuel 1 (Some t) saved acc = (0, Some t, saved, acc).
Proof. destruct fuel; reflexivity. Qed.

Lemma Tokenize_loop_null fuel remaining saved acc :
  Tokenize_loop fuel remaining None saved acc = (remaining, None, saved, acc).
Proof. destruct fuel; reflexivity. Qed.

(** The loop does not depend on its fuel, once there is enough. *)
Lemma Tokenize_loop_fuel fuel1 :
  forall fuel2 remaining token saved acc,
    remaining - 1 <= Z.of_nat fuel1 ->
    remaining - 1 <= Z.of_nat fuel2 ->
    Tokenize_loop fuel1 remaining token saved acc
    = Tokenize_loop fuel2 remaining token saved acc.
Proof.
  induction fuel1 as [|fuel1 IH];
    intros fuel2 remaining [t|] saved acc H1 H2;
    rewrite ?Tokenize_loop_null; try reflexivity.
  - destruct fuel2; cbn [Tokenize_loop];
      rewrite Z.gtb_ltb, (proj2 (Z.ltb_ge _ _)) by lia; reflexivity.
  - destruct fuel2 as [|fuel2]; cbn [Tokenize_loop].
    + rewrite Z.gtb_ltb, (proj2 (Z.ltb_ge _ _)) by lia. reflexivity.
    + destruct (remaining - 1 >? 0); [|reflexivity].
      destruct (remaining - 1 >? 1);
        [destruct (CLib.strtok space_cr_lf saved)|]; apply IH; lia.
Qed.

(** The loop entered with a token in hand and room for [j] more. *)
Lemma Tokenize_loop_tokens j :
  forall fuel t saved acc,
    (1 <= j)%nat -> (j <= fuel)%nat ->
    after_loop (Tokenize_loop fuel (Z.of_nat j + 1) (Some t) saved acc)
    = acc ++ t :: tokens_with cut j saved.
Proof.
  induction j as [|j IH]; intros fuel t saved acc Hj Hf; [lia|].
  destruct fuel as [|fuel]; [lia|].
  cbn [Tokenize_loop].
  replace (Z.of_nat (S j) + 1 - 1) with (Z.of_nat (S j)) by lia.
  rewrite (proj2 (Z.gtb_lt _ _)) by lia.
  destruct j as [|j].
  - change (Z.of_nat 1 >? 1) with false. cbv iota.
    change (Z.of_nat 1) with 1.
    rewrite Tokenize_loop_exit. cbn [after_loop tokens_with].
    change (1 - 1 =? 0) with true. change (0 =? 0) with true. cbv iota.
    destruct (cut saved); simpl; rewrite <- ?app_assoc; reflexivity.
  - rewrite (proj2 (Z.gtb_lt (Z.of_nat (S (S j))) 1)) by lia.
    rewrite strtok_next_token.
    cbn [tokens_with].
    destruct (next_token saved) as [[t' k]|].
    + replace (Z.of_nat (S (S j))) with (Z.of_nat (S j) + 1) by lia.
      rewrite IH by lia. rewrite <- app_assoc. reflexivity.
    + rewrite Tokenize_loop_null. cbn [after_loop].
      rewrite (proj2 (Z.eqb_neq _ _)) by lia. reflexivity.
Qed.

(** [Tokenize] for any line at all: the rule, with [strtok] making the
    last token. *)
Lemma Tokenize_cut line max_tokens :
  2 <= max_tokens ->
  Tokenize line max_tokens =
    (Z.of_nat (length (tokens_with cut (Z.to_nat max_tokens) line))
       =? CLib.to_u32 max_tokens,
     tokens_with cut (Z.to_nat max_tokens) line).
Proof.
  intros HN. unfold Tokenize.
  assert (Hshape : tokens_with cut (Z.to_nat max_tokens) line =
            after_loop
              (let '(token, saved) := CLib.strtok space_cr_lf line in
               Tokenize_loop (Z.to_nat max_tokens) max_tokens token saved [])).
  { rewrite strtok_next_token.
    destruct (Z.to_nat max_tokens) as [|[|n]] eqn:Hn; [lia|lia|].
    cbn [tokens_with].
    destruct (next_token line) as [[t k]|].
    - replace max_tokens with (Z.of_nat (S n) + 1) by lia.
      rewrite Tokenize_loop_tokens by lia. reflexivity.
    - rewrite Tokenize_loop_null. cbn [after_loop].
      rewrite (proj2 (Z.eqb_neq _ _)) by lia. reflexivity. }
  rewrite Hshape.
  destruct (CLib.strtok space_cr_lf line) as [token saved].
  reflexivity.
Qed.

Lemma tokens_with_ext f g n :
  forall s,
    record_line s = true ->
    (forall r, record_line r = true -> f r = g r) ->
    tokens_with f n s = tokens_with g n s.
Proof.
  induction n as [|n IH]; intros s Hs Hfg; [reflexivity|].
  destruct n as [|n].
  - cbn [tokens_with]. rewrite Hfg by exact Hs. reflexivity.
  - cbn [tokens_with] in *.
    destruct (next_token s) as [[t k]|] eqn:Ht; [|reflexivity].
    f_equal. apply IH; [|exact Hfg].
    eapply next_token_record_line; eassumption.
Qed.

Lemma tokens_with_length f n : forall s, (length (tokens_with f n s) <= n)%nat.
Proof.
  induction n as [|n IH]; intros s; [simpl; lia|].
  destruct n as [|n].
  - cbn [tokens_with]. destruct (f s); simpl; lia.
  - cbn [tokens_with] in *.
    destruct (next_token s) as [[t k]|]; [|simpl; lia].
    specialize (IH k). simpl in *. lia.
Qed.

(** On a record line, [Tokenize] computes the tokens of the rule. *)
Lemma Tokenize_tokens line max_tokens :
  2 <= max_tokens < 2 ^ 32 ->
  record_line line = true ->
  Tokenize line max_tokens =
    (Z.of_nat (length (tokens (Z.to_nat max_tokens) line)) =? max_tokens,
     tokens (Z.to_nat max_tokens) line).
Proof.
  intros HN Hl. rewrite Tokenize_cut by lia.
  unfold tokens.
  rewrite (tokens_with_ext cut trimmed _ line Hl)
    by (intros r Hr; apply strtok_final, Hr).
  unfold CLib.to_u32. rewrite Z.mod_small by lia. reflexivity.
Qed.

End TokenizeRefinement.

(** ** Loading and looking up the example *)

Lemma example_loads name :
  exists module,
    LoadMap_loop (new_Module name) None (buffers (symbol_file example_records))
    = (true, module)
    /\ forall frame info,
        exists frame' info',
          LookupAddress module 0x1000 frame (Some info) = (frame', Some info')
          /\ StackFrame.function_name frame' = "foo"
          /\ StackFrame.source_file_name frame' = "a.c"
          /\ StackFrame.source_line frame' = 42
          /\ StackFrameInfo.valid info' = true
          /\ StackFrameInfo.program_string info' = "prog".
Proof.
  eexists. split; [vm_compute; reflexivity|].
  intros frame info. eexists. eexists. split; [vm_compute; reflexivity|].
  repeat split.
Qed.

(** C1.  The symbol file of the four records [FILE 0 a.c],
    [FUNC 1000 10 foo], [1000 5 42 0] and
    [STACK WIN 4 1000 10 0 0 0 0 0 0 prog] loads under a name that is
    free, and looking the address 0x1000 up in the module it registers,
    with frame information asked for, gives the function "foo", the
    file "a.c", the line 42 and a valid [StackFrameInfo] whose program
    string is "prog"; [FillSourceLineInfo] gives the same for a frame of
    this module whose instruction lies 0x1000 above its base. *)
Theorem example_load_and_lookup w modules name path frame info :
  modules !! name = None ->
  disk w !! path = Some (symbol_file example_records) ->
  exists module w' frame' info',
    LoadModule w modules name path = (true, <[name := module]> modules, w')
    /\ LookupAddress module 0x1000 frame (Some info) = (frame', Some info')
    /\ StackFrame.function_name frame' = "foo"
    /\ StackFrame.source_file_name frame' = "a.c"
    /\ StackFrame.source_line frame' = 42
    /\ StackFrameInfo.valid info' = true
    /\ StackFrameInfo.program_string info' = "prog"
    /\ (StackFrame.module_name frame = name ->
        StackFrame.instruction frame = StackFrame.module_base frame + 0x1000 ->
        FillSourceLineInfo (<[name := module]> modules) frame (Some info)
        = (frame', Some info')).
Proof.
  intros Hfree Hdisk.
  destruct (example_loads name) as (module & Hload & Hlook).
  destruct (Hlook frame info)
    as (frame' & info' & Hl & Hfn & Hfile & Hline & Hvalid & Hprog).
  exists module, (fclose (mkWorld (disk w) (S (open_handles w)))), frame', info'.
  split.
  { unfold LoadModule. rewrite Hfree.
    unfold LoadMap, fopen. rewrite Hdisk, Hload. reflexivity. }
  repeat (split; [assumption|]).
  intros Hname Hinstr. unfold FillSourceLineInfo.
  rewrite Hname, lookup_insert_eq, Hinstr.
  replace (StackFrame.module_base frame + 0x1000 - StackFrame.module_base frame)
    with 0x1000 by lia.
  exact Hl.
Qed.

Lemma example_load_and_lookup_witness :
  (∅ : ModuleMap) !! "app" = None
  /\ disk (world_with "app.sym" example_records) !! "app.sym"
     = Some (symbol_file example_records)
  /\ exists module w' frame' info',
      LoadModule (world_with "app.sym" example_records) ∅ "app" "app.sym"
      = (true, <["app" := module]> ∅, w')
      /\ LookupAddress module 0x1000 (empty_frame "app" 0x400000 0x401000)
           (Some StackFrameInfo.default) = (frame', Some info')
      /\ StackFrame.function_name frame' = "foo"
      /\ StackFrame.source_file_name frame' = "a.c"
      /\ StackFrame.source_line frame' = 42
      /\ StackFrameInfo.valid info' = true
      /\ StackFrameInfo.program_string info' = "prog"
      /\ FillSourceLineInfo (<["app" := module]> ∅)
           (empty_frame "app" 0x400000 0x401000) (Some StackFrameInfo.default)
         = (frame', Some info').
Proof.
  split; [reflexivity|]. split; [reflexivity|].
  destruct (example_load_and_lookup (world_with "app.sym" example_records) ∅
              "app" "app.sym" (empty_frame "app" 0x400000 0x401000)
              StackFrameInfo.default (lookup_empty _) eq_refl)
    as (module & w' & frame' & info' & H1 & H2 & H3 & H4 & H5 & H6 & H7 & H8).
  exists module, w', frame', info'.
  repeat (split; [assumption|]).
  apply H8; reflexivity.
Defined.

(** ** The registry *)

Lemma HasModule_false modules name :
  modules !! name = None -> HasModule modules name = false.
Proof.
  intros H. unfold HasModule. rewrite H.
  apply bool_decide_eq_false. intros [x Hx]. discriminate.
Qed.

(** C2.  For every resolver state and module name: under a registered
    name [LoadModule] returns false and leaves the registry as it was,
    so that every frame resolves as before; when [LoadMap] fails,
    [LoadModule] returns false, the registry is as it was and
    [HasModule] is false for the name; when the name is free and
    [LoadMap] succeeds, [LoadModule] returns true and registers the
    module that [LoadMap] built under the name; and it returns true in
    this case only. *)
Theorem LoadModule_registers_on_success_only w modules name path :
  (forall module, modules !! name = Some module ->
     LoadModule w modules name path = (false, modules, w)
     /\ exists modules',
         LoadModule w modules name path = (false, modules', w)
         /\ modules' !! name = Some module
         /\ forall frame info,
             FillSourceLineInfo modules' frame info
             = FillSourceLineInfo modules frame info)
  /\ (forall module w',
        modules !! name = None ->
        LoadMap w (new_Module name) path = (false, module, w') ->
        LoadModule w modules name path = (false, modules, w')
        /\ HasModule modules name = false)
  /\ (forall module w',
        modules !! name = None ->
        LoadMap w (new_Module name) path = (true, module, w') ->
        LoadModule w modules name path
        = (true, <[name := module]> modules, w')
        /\ (<[name := module]> modules) !! name = Some module
        /\ HasModule (<[name := module]> modules) name = true)
  /\ (forall modules' w',
        LoadModule w modules name path = (true, modules', w') ->
        modules !! name = None
        /\ exists module,
            LoadMap w (new_Module name) path = (true, module, w')
            /\ modules' = <[name := module]> modules
            /\ HasModule modules' name = true).
Proof.
  assert (Hhas : forall module,
             HasModule (<[name := module]> modules) name = true).
  { intros module. unfold HasModule. rewrite lookup_insert_eq.
    apply bool_decide_eq_true. eexists; reflexivity. }
  split; [|split; [|split]].
  - intros module Hreg.
    assert (Hrun : LoadModule w modules name path = (false, modules, w))
      by (unfold LoadModule; rewrite Hreg; reflexivity).
    split; [exact Hrun|]. exists modules.
    split; [exact Hrun|]. split; [exact Hreg|reflexivity].
  - intros module w' Hfree Hload. unfold LoadModule.
    rewrite Hfree, Hload. split; [reflexivity|].
    apply HasModule_false, Hfree.
  - intros module w' Hfree Hload.
    split; [unfold LoadModule; rewrite Hfree, Hload; reflexivity|].
    split; [apply lookup_insert_eq | apply Hhas].
  - intros modules' w'. unfold LoadModule.
    destruct (modules !! name) as [old|] eqn:Hreg; [discriminate|].
    destruct (LoadMap w (new_Module name) path) as [[[|] module] w1] eqn:Hload;
      [|discriminate].
    intros [= <- <-]. split; [reflexivity|].
    exists module. split; [reflexivity|]. split; [reflexivity|].
    apply Hhas.
Qed.

Lemma LoadModule_registers_on_success_only_witness :
  let w := world_with "app.sym" example_records in
  let bad := world_with "app.sym" ["1000 5 42 0"] in
  let registered : ModuleMap := {[ "app" := new_Module "app" ]} in
  (registered !! "app" = Some (new_Module "app")
   /\ LoadModule w registered "app" "app.sym" = (false, registered, w)
   /\ exists modules',
       LoadModule w registered "app" "app.sym" = (false, modules', w)
       /\ modules' !! "app" = Some (new_Module "app")
       /\ forall frame info,
           FillSourceLineInfo modules' frame info
           = FillSourceLineInfo registered frame info)
  /\ ((∅ : ModuleMap) !! "app" = None
      /\ LoadMap bad (new_Module "app") "app.sym"
         = (false, new_Module "app", mkWorld (disk bad) 1)
      /\ LoadModule bad ∅ "app" "app.sym" = (false, ∅, mkWorld (disk bad) 1)
      /\ HasModule (∅ : ModuleMap) "app" = false)
  /\ (LoadMap w (new_Module "app") "app.sym"
      = (true, loaded "app" example_records, w)
      /\ LoadModule w ∅ "app" "app.sym"
         = (true, <["app" := loaded "app" example_records]> ∅, w)
      /\ (<["app" := loaded "app" example_records]> (∅ : ModuleMap)) !! "app"
         = Some (loaded "app" example_records)
      /\ HasModule (<["app" := loaded "app" example_records]> (∅ : ModuleMap))
           "app" = true)
  /\ (fst (fst (LoadModule w ∅ "app" "app.sym")) = true
      /\ HasModule (snd (fst (LoadModule w ∅ "app" "app.sym"))) "app" = true).
Proof.
  intros w bad registered.
  split; [|split; [|split]].
  - split; [reflexivity|].
    apply (proj1 (LoadModule_registers_on_success_only w registered
                    "app" "app.sym") (new_Module "app")).
    reflexivity.
  - assert (Hload : LoadMap bad (new_Module "app") "app.sym"
                    = (false, new_Module "app", mkWorld (disk bad) 1))
      by (vm_compute; reflexivity).
    split; [reflexivity|]. split; [exact Hload|].
    apply (proj1 (proj2 (LoadModule_registers_on_success_only bad ∅
                           "app" "app.sym")) _ _ (lookup_empty _) Hload).
  - assert (Hload : LoadMap w (new_Module "app") "app.sym"
                    = (true, loaded "app" example_records, w))
      by (vm_compute; reflexivity).
    split; [exact Hload|].
    apply (proj1 (proj2 (proj2 (LoadModule_registers_on_success_only w ∅
                                  "app" "app.sym")))
             _ _ (lookup_empty _) Hload).
  - split; [vm_compute; reflexivity|].
    destruct (LoadModule w ∅ "app" "app.sym") as [[ok modules'] w'] eqn:Hrun.
    assert (Hok : ok = true)
      by (apply (f_equal (fun r => fst (fst r))) in Hrun;
          vm_compute in Hrun; congruence).
    subst ok.
    destruct (proj2 (proj2 (proj2 (LoadModule_registers_on_success_only w ∅
                                     "app" "app.sym"))) _ _ Hrun)
      as (_ & module & _ & _ & Hhas).
    exact Hhas.
Defined.

(** ** Structural errors *)

Lemma LoadMap_loop_app before :
  forall m cur_func m' cur_func' rest,
    LoadMap_steps m cur_func before = Some (m', cur_func') ->
    LoadMap_loop m cur_func (before ++ rest) = LoadMap_loop m' cur_func' rest.
Proof.
  induction before as [|b before IH]; intros m c m' c' rest; simpl.
  - intros [= <- <-]. reflexivity.
  - destruct (LoadMap_step m c b) as [[m1 c1]|]; [apply IH|discriminate].
Qed.

Lemma LoadMap_loop_abort m cur_func buffer rest :
  LoadMap_step m cur_func buffer = None ->
  LoadMap_loop m cur_func (buffer :: rest) = (false, m).
Proof. intros H. simpl. rewrite H. reflexivity. Qed.

Ltac kind_cases buffer :=
  unfold record_tokens, record_kind, LoadMap_step in *;
  destruct (CLib.starts_with "FILE " buffer) eqn:?;
  [| destruct (CLib.starts_with "STACK " buffer) eqn:?;
     [| destruct (CLib.starts_with "FUNC " buffer) eqn:? ] ];
  cbn [prefix_length token_count] in *;
  try congruence.

(** A structural error makes the turn return from [LoadMap]. *)
Lemma structural_error_returns m cur_func buffer :
  structural_error cur_func buffer -> LoadMap_step m cur_func buffer = None.
Proof.
  intros [Hk Ht | Hk Hp | Hk Hty | Hk Hn | Hk Hc]; kind_cases buffer.
  - unfold ParseStackInfo.
    destruct (Tokenize _ 11) as [ok toks]. simpl in Ht. subst ok. reflexivity.
  - unfold ParseFunction.
    destruct (Tokenize _ 3) as [ok toks]. simpl in Ht. subst ok. reflexivity.
  - destruct cur_func; [|reflexivity]. unfold ParseLine.
    change (CLib.advance 0 buffer) with buffer in Ht.
    destruct (Tokenize _ 4) as [ok toks]. simpl in Ht. subst ok. reflexivity.
  - unfold ParseStackInfo.
    destruct (Tokenize _ 11) as [[|] toks]; [|reflexivity]. simpl in Hp.
    destruct (String.eqb_spec (tok toks 0) "WIN"); [contradiction|reflexivity].
  - unfold ParseStackInfo.
    destruct (Tokenize _ 11) as [[|] toks]; [|reflexivity].
    cbn [snd negb] in *.
    destruct (negb (tok toks 0 =? "WIN")%string); [reflexivity|].
    fold (stack_type toks).
    assert (Hb : (stack_type toks <? 0) || (stack_type toks >? STACK_INFO_LAST - 1)
                 = true).
    { apply orb_true_iff. destruct Hty as [H|H];
        [left; apply Z.ltb_lt | right; apply Z.gtb_lt]; exact H. }
    rewrite Hb. reflexivity.
  - destruct cur_func; [|reflexivity]. unfold ParseLine.
    change (CLib.advance 0 buffer) with buffer in Hn.
    destruct (Tokenize _ 4) as [[|] toks]; [|reflexivity]. simpl in Hn.
    rewrite (proj2 (Z.leb_le _ _) Hn). reflexivity.
  - subst cur_func. reflexivity.
Qed.

(** And a turn returns from [LoadMap] for no other reason. *)
Lemma return_is_structural_error m cur_func buffer :
  LoadMap_step m cur_func buffer = None -> structural_error cur_func buffer.
Proof.
  unfold LoadMap_step.
  destruct (CLib.starts_with "FILE " buffer) eqn:HFILE; [discriminate|].
  destruct (CLib.starts_with "STACK " buffer) eqn:HSTACK.
  { assert (Hk : record_kind buffer = STACK_record)
      by (unfold record_kind; rewrite HFILE, HSTACK; reflexivity).
    assert (Ht : record_tokens buffer = Tokenize (CLib.advance 6 buffer) 11)
      by (unfold record_tokens; rewrite Hk; reflexivity).
    unfold ParseStackInfo.
    destruct (Tokenize (CLib.advance 6 buffer) 11) as [[|] toks] eqn:Htok;
      cbn [negb].
    - destruct (String.eqb_spec (tok toks 0) "WIN") as [Hwin|Hwin]; cbn [negb].
      + fold (stack_type toks).
        destruct ((stack_type toks <? 0) || (stack_type toks >? STACK_INFO_LAST - 1))
          eqn:Hty.
        * intros _. apply type_out_of_range; [exact Hk|]. rewrite Ht. cbn [snd].
          apply orb_true_iff in Hty as [H%Z.ltb_lt|H%Z.gtb_lt]; [left|right];
            exact H.
        * destruct (ContainedRangeMap.StoreRange _ _ _ _). discriminate.
      + intros _. apply platform_not_WIN; [exact Hk|]. rewrite Ht. exact Hwin.
    - intros _. apply too_few_tokens; [congruence|]. rewrite Ht. reflexivity. }
  destruct (CLib.starts_with "FUNC " buffer) eqn:HFUNC.
  { assert (Hk : record_kind buffer = FUNC_record)
      by (unfold record_kind; rewrite HFILE, HSTACK, HFUNC; reflexivity).
    assert (Ht : record_tokens buffer = Tokenize (CLib.advance 5 buffer) 3)
      by (unfold record_tokens; rewrite Hk; reflexivity).
    unfold ParseFunction.
    destruct (Tokenize (CLib.advance 5 buffer) 3) as [[|] toks] eqn:Htok;
      cbn [negb].
    - destruct (RangeMap.StoreRange _ _ _ _) as [[|] index]; discriminate.
    - intros _. apply too_few_tokens; [congruence|]. rewrite Ht. reflexivity. }
  assert (Hk : record_kind buffer = line_record)
    by (unfold record_kind; rewrite HFILE, HSTACK, HFUNC; reflexivity).
  assert (Ht : record_tokens buffer = Tokenize buffer 4)
    by (unfold record_tokens; rewrite Hk; reflexivity).
  destruct cur_func as [p|];
    [|intros _; apply no_current_function; [exact Hk|reflexivity]].
  unfold ParseLine.
  destruct (Tokenize buffer 4) as [[|] toks] eqn:Htok; cbn [negb].
  - destruct (Z.leb_spec (CLib.atoi (tok toks 2)) 0) as [Hn|Hn];
      [|destruct (objects m !! p); discriminate].
    intros _. apply line_number_not_positive; [exact Hk|]. rewrite Ht. exact Hn.
  - intros _. apply too_few_tokens; [congruence|]. rewrite Ht. reflexivity.
Qed.

(** C3, as the code has it.  A structural format error in a record
    that is not a FILE record (too few tokens, a STACK record whose
    platform is not WIN or whose type is not a valid index, a line
    record whose line number is not positive, a line record with no
    current function) makes [LoadMap] return false at that line: the
    module is as the lines before built it, no later line is read, and
    [LoadModule] returns false without registering anything.  A FILE
    record with too few tokens is passed over: the loop goes on with
    the module and the current function as they were. *)
Theorem structural_error_aborts_load :
  (forall w modules name path content before buffer after m cur_func,
      modules !! name = None ->
      disk w !! path = Some content ->
      buffers content = before ++ buffer :: after ->
      LoadMap_steps (new_Module name) None before = Some (m, cur_func) ->
      structural_error cur_func buffer ->
      LoadMap_loop (new_Module name) None (buffers content) = (false, m)
      /\ exists w', LoadModule w modules name path = (false, modules, w'))
  /\ (forall m cur_func buffer,
        record_kind buffer = FILE_record ->
        fst (record_tokens buffer) = false ->
        LoadMap_step m cur_func buffer = Some (m, cur_func)).
Proof.
  split.
  - intros w modules name path content before buffer after m cur_func
      Hfree Hdisk Hsplit Hbefore Herr.
    assert (Hloop : LoadMap_loop (new_Module name) None (buffers content)
                    = (false, m)).
    { rewrite Hsplit, (LoadMap_loop_app _ _ _ _ _ _ Hbefore).
      apply LoadMap_loop_abort, structural_error_returns, Herr. }
    split; [exact Hloop|].
    unfold LoadModule, LoadMap, fopen. rewrite Hfree, Hdisk, Hloop.
    eexists. reflexivity.
  - intros m cur_func buffer Hk Ht. kind_cases buffer.
    unfold ParseFile.
    destruct (Tokenize (CLib.advance 5 buffer) 2) as [ok toks].
    simpl in Ht. subst ok. reflexivity.
Qed.

Lemma structural_error_aborts_load_witness :
  (∅ : ModuleMap) !! "app" = None
  /\ disk (world_with "app.sym"
             ["FUNC 1000 10 foo"; "1000 5 0 0"; "FILE 0 a.c"]) !! "app.sym"
     = Some (symbol_file ["FUNC 1000 10 foo"; "1000 5 0 0"; "FILE 0 a.c"])
  /\ buffers (symbol_file ["FUNC 1000 10 foo"; "1000 5 0 0"; "FILE 0 a.c"])
     = [record "FUNC 1000 10 foo"] ++ record "1000 5 0 0"
       :: [record "FILE 0 a.c"]
  /\ LoadMap_steps (new_Module "app") None [record "FUNC 1000 10 foo"]
     = Some (loaded "app" ["FUNC 1000 10 foo"], Some 0%nat)
  /\ structural_error (Some 0%nat) (record "1000 5 0 0")
  /\ LoadMap_loop (new_Module "app") None
       (buffers (symbol_file ["FUNC 1000 10 foo"; "1000 5 0 0"; "FILE 0 a.c"]))
     = (false, loaded "app" ["FUNC 1000 10 foo"])
  /\ (exists w',
        LoadModule (world_with "app.sym"
                      ["FUNC 1000 10 foo"; "1000 5 0 0"; "FILE 0 a.c"])
          ∅ "app" "app.sym" = (false, ∅, w'))
  /\ record_kind (record "FILE 7") = FILE_record
  /\ fst (record_tokens (record "FILE 7")) = false
  /\ LoadMap_step (new_Module "app") None (record "FILE 7")
     = Some (new_Module "app", None).
Proof.
  assert (Herr : structural_error (Some 0%nat) (record "1000 5 0 0"))
    by (apply line_number_not_positive; [reflexivity | vm_compute; discriminate]).
  split; [reflexivity|]. split; [reflexivity|]. split; [reflexivity|].
  split; [vm_compute; reflexivity|]. split; [exact Herr|].
  destruct (proj1 structural_error_aborts_load
              (world_with "app.sym"
                 ["FUNC 1000 10 foo"; "1000 5 0 0"; "FILE 0 a.c"])
              ∅ "app" "app.sym" _ [record "FUNC 1000 10 foo"]
              (record "1000 5 0 0") [record "FILE 0 a.c"]
              (loaded "app" ["FUNC 1000 10 foo"]) (Some 0%nat)
              (lookup_empty _) eq_refl eq_refl eq_refl Herr) as [Hloop Hload].
  split; [exact Hloop|]. split; [exact Hload|].
  split; [reflexivity|]. split; [reflexivity|].
  apply (proj2 structural_error_aborts_load); reflexivity.
Defined.

(** C3, as it is worded, fails on FILE records: the line [FILE 0] has
    one token where its record kind asks for two, and the file that
    holds it loads. *)
Lemma short_FILE_record_loads :
  buffers (symbol_file ["FILE 0"]) = [record "FILE 0"]
  /\ record_kind (record "FILE 0") = FILE_record
  /\ record_tokens (record "FILE 0") = (false, ["0"])
  /\ fst (fst (LoadModule (world_with "app.sym" ["FILE 0"]) ∅
                "app" "app.sym")) = true.
Proof. repeat split; vm_compute; reflexivity. Qed.

(** ** Data-quality anomalies *)

Lemma RangeMap_store_overlapping {A} (m : RangeMap.t A) base size entry b s q :
  In (b, s, q) m -> RangeMap.overlaps b s base size = true ->
  RangeMap.StoreRange m base size entry = (false, m).
Proof.
  intros Hin Hov. unfold RangeMap.StoreRange.
  assert (H : existsb (fun '(b, s, _) => RangeMap.overlaps b s base size) m
              = true).
  { apply existsb_exists. exists (b, s, q). split; [exact Hin|exact Hov]. }
  rewrite H. reflexivity.
Qed.

Lemma RangeMap_store_shape {A} (m : RangeMap.t A) base size entry :
  snd (RangeMap.StoreRange m base size entry) = m
  \/ snd (RangeMap.StoreRange m base size entry) = m ++ [(base, size, entry)].
Proof.
  unfold RangeMap.StoreRange. destruct (existsb _ m); [left|right]; reflexivity.
Qed.

Lemma ContainedRangeMap_store_failed {A}
    (m : ContainedRangeMap.t A) base size entry :
  fst (ContainedRangeMap.StoreRange m base size entry) = false ->
  snd (ContainedRangeMap.StoreRange m base size entry) = m.
Proof.
  unfold ContainedRangeMap.StoreRange.
  destruct (ContainedRangeMap.store_level _ _ _ _ m); [discriminate|reflexivity].
Qed.

Lemma set_stack_info_same m : set_stack_info m (stack_info_ m) = m.
Proof. destruct m; reflexivity. Qed.

Lemma stack_info_write_back m type :
  <[Z.to_nat type := stack_info_at m type]> (stack_info_ m) = stack_info_ m.
Proof.
  unfold stack_info_at.
  destruct (stack_info_ m !! Z.to_nat type) as [x|] eqn:Hx.
  - apply list_insert_id, Hx.
  - apply list_insert_ge, lookup_ge_None, Hx.
Qed.

(** What [ParseStackInfo] does with a record it accepts. *)
Lemma ParseStackInfo_accepts m buffer tokens :
  Tokenize (CLib.advance 6 buffer) 11 = (true, tokens) ->
  tok tokens 0 = "WIN" ->
  0 <= stack_type tokens <= STACK_INFO_LAST - 1 ->
  ParseStackInfo m buffer =
    (true,
     set_stack_info m
       (<[Z.to_nat (stack_type tokens) :=
            snd (ContainedRangeMap.StoreRange
                   (stack_info_at m (stack_type tokens))
                   (stack_rva tokens) (stack_code_size tokens)
                   (stack_frame_info tokens))]> (stack_info_ m))).
Proof.
  intros Htok Hwin Hty. unfold ParseStackInfo. rewrite Htok. cbn [negb].
  rewrite Hwin. cbn [String.eqb Ascii.eqb Bool.eqb negb].
  fold (stack_type tokens).
  rewrite (proj2 (Z.ltb_ge _ _)) by lia.
  rewrite Z.gtb_ltb, (proj2 (Z.ltb_ge _ _)) by lia. cbn [orb].
  fold (stack_rva tokens) (stack_code_size tokens).
  unfold stack_frame_info.
  destruct (ContainedRangeMap.StoreRange _ _ _ _). reflexivity.
Qed.

Lemma RangeMap_store_cases {A} (m : RangeMap.t A) base size entry :
  RangeMap.StoreRange m base size entry = (false, m)
  \/ RangeMap.StoreRange m base size entry
     = (true, m ++ [(base, size, entry)]).
Proof.
  unfold RangeMap.StoreRange. destruct (existsb _ m); [left|right]; reflexivity.
Qed.

Lemma set_functions_same m :
  set_functions (set_objects m (objects m)) (functions_ m) = m.
Proof. destruct m; reflexivity. Qed.

(** What the loop does with a FUNC record that parses: the object
    stays only when the index takes it. *)
Lemma FUNC_record_step m cur_func buffer f :
  record_kind buffer = FUNC_record ->
  ParseFunction buffer = Some f ->
  LoadMap_step m cur_func buffer =
    Some (set_functions
            (set_objects m
               (kept_alive
                  (fst (RangeMap.StoreRange (functions_ m)
                          (Function.address f) (Function.size f)
                          (length (objects m))))
                  (objects m) f))
            (snd (RangeMap.StoreRange (functions_ m)
                    (Function.address f) (Function.size f)
                    (length (objects m)))),
          Some (length (objects m))).
Proof.
  intros Hk Hf. kind_cases buffer. rewrite Hf.
  destruct (RangeMap.StoreRange _ _ _ _) as [stored index]. reflexivity.
Qed.

(** What the loop does with a line record that parses, when the
    current function is alive and when it is not. *)
Lemma line_record_step m p buffer line func :
  record_kind buffer = line_record ->
  ParseLine buffer = Some line ->
  objects m !! p = Some func ->
  LoadMap_step m (Some p) buffer =
    Some (set_objects m (alter (store_line line) p (objects m)), Some p).
Proof. intros Hk Hl Hf. kind_cases buffer. rewrite Hl, Hf. reflexivity. Qed.

Lemma line_record_dangling m p buffer line :
  record_kind buffer = line_record ->
  ParseLine buffer = Some line ->
  objects m !! p = None ->
  LoadMap_step m (Some p) buffer = Some (set_dangling_write m, Some p).
Proof. intros Hk Hl Hf. kind_cases buffer. rewrite Hl, Hf. reflexivity. Qed.

Lemma LoadMap_steps_app before :
  forall m cur_func m' cur_func' rest,
    LoadMap_steps m cur_func before = Some (m', cur_func') ->
    LoadMap_steps m cur_func (before ++ rest) = LoadMap_steps m' cur_func' rest.
Proof.
  induction before as [|b before IH]; intros m c m' c' rest; simpl.
  - intros [= <- <-]. reflexivity.
  - destruct (LoadMap_step m c b) as [[m1 c1]|]; [apply IH|discriminate].
Qed.

Lemma ParseFunction_lines buffer f :
  ParseFunction buffer = Some f -> Function.lines f = RangeMap.empty.
Proof.
  unfold ParseFunction. destruct (Tokenize _ 3) as [[|] toks]; simpl;
    [intros [= <-]; reflexivity | discriminate].
Qed.

(** C4 fails on the code.  In the symbol file of [FUNC 1000 10 foo],
    [FUNC 1008 10 bar] and the line record [1008 4 7 0], the second
    function overlaps the first: the index refuses it and stays as it
    was, the loop goes on, and the [Function] of bar is destroyed with
    the temporary handle that was its only owner, so that [cur_func]
    points to no object.  The line record is then stored through this
    dangling pointer instead of attaching to a function object: the
    load comes to its end and the module is registered, but from that
    store on the behaviour of the program is undefined. *)
Theorem line_after_refused_function_is_stored_through_dangling_pointer :
  buffers (symbol_file refused_function_records)
  = [record "FUNC 1000 10 foo"; record "FUNC 1008 10 bar";
     record "1008 4 7 0"]
  /\ LoadMap_steps (new_Module "app") None
       [record "FUNC 1000 10 foo"; record "FUNC 1008 10 bar"]
     = Some (loaded "app" ["FUNC 1000 10 foo"], Some 1%nat)
  /\ functions_ (loaded "app" ["FUNC 1000 10 foo"]) = [(0x1000, 0x10, 0%nat)]
  /\ objects (loaded "app" ["FUNC 1000 10 foo"])
     = [Function.mk "foo" 0x1000 0x10 RangeMap.empty]
  /\ objects (loaded "app" ["FUNC 1000 10 foo"]) !! 1%nat = None
  /\ ParseLine (record "1008 4 7 0") = Some (Line.mk 0x1008 4 0 7)
  /\ LoadMap_step (loaded "app" ["FUNC 1000 10 foo"]) (Some 1%nat)
       (record "1008 4 7 0")
     = Some (set_dangling_write (loaded "app" ["FUNC 1000 10 foo"]),
             Some 1%nat)
  /\ LoadModule (world_with "app.sym" refused_function_records) ∅
       "app" "app.sym"
     = (true,
        {[ "app" := set_dangling_write (loaded "app" ["FUNC 1000 10 foo"]) ]},
        world_with "app.sym" refused_function_records)
  /\ dangling_write (set_dangling_write (loaded "app" ["FUNC 1000 10 foo"]))
     = true.
Proof. repeat split; vm_compute; reflexivity. Qed.

Lemma ParseFile_index m buffer :
  functions_ (ParseFile m buffer) = functions_ m
  /\ objects (ParseFile m buffer) = objects m
  /\ stack_info_ (ParseFile m buffer) = stack_info_ m.
Proof.
  unfold ParseFile. destruct (Tokenize _ 2) as [[|] toks]; cbn [negb];
    [|repeat split].
  destruct (_ <? 0); [repeat split|].
  destruct (files_ m !! _); repeat split.
Qed.

Lemma ParseStackInfo_index m buffer :
  functions_ (snd (ParseStackInfo m buffer)) = functions_ m
  /\ objects (snd (ParseStackInfo m buffer)) = objects m.
Proof.
  unfold ParseStackInfo. destruct (Tokenize _ 11) as [[|] toks]; cbn [negb];
    [|repeat split].
  destruct (negb _); [repeat split|].
  destruct (_ || _); [repeat split|].
  destruct (ContainedRangeMap.StoreRange _ _ _ _). repeat split.
Qed.

Lemma index_valid_step m cur_func buffer m' cur_func' :
  index_valid m ->
  LoadMap_step m cur_func buffer = Some (m', cur_func') ->
  index_valid m'.
Proof.
  intros Hv. unfold LoadMap_step.
  destruct (CLib.starts_with "FILE " buffer).
  { intros [= <- <-]. destruct (ParseFile_index m buffer) as (Hf & Ho & _).
    intros b s p. rewrite Hf, Ho. apply Hv. }
  destruct (CLib.starts_with "STACK " buffer).
  { pose proof (ParseStackInfo_index m buffer) as [Hf Ho].
    destruct (ParseStackInfo m buffer) as [[|] m1]; [|discriminate].
    intros [= <- <-]. intros b s p. simpl in Hf, Ho. rewrite Hf, Ho. apply Hv. }
  destruct (CLib.starts_with "FUNC " buffer).
  { destruct (ParseFunction buffer) as [f|]; [|discriminate].
    destruct (RangeMap_store_cases (functions_ m) (Function.address f)
                (Function.size f) (length (objects m))) as [-> | ->];
      intros [= <- <-]; intros b s p;
      cbn [functions_ objects set_functions set_objects kept_alive].
    - apply Hv.
    - rewrite length_app. simpl.
      intros [H%Hv|[[= _ _ <-]|[]]]%in_app_or; lia. }
  destruct cur_func as [p|]; [|discriminate].
  destruct (ParseLine buffer) as [line|]; [|discriminate].
  destruct (objects m !! p); intros [= <- <-]; intros b s q;
    cbn [functions_ objects set_objects set_dangling_write];
    rewrite ?length_alter; apply Hv.
Qed.

Lemma index_valid_loaded lines :
  forall m cur_func m' cur_func',
    index_valid m ->
    LoadMap_steps m cur_func lines = Some (m', cur_func') ->
    index_valid m'.
Proof.
  induction lines as [|b lines IH]; intros m c m' c' Hv; simpl.
  - intros [= <- <-]. exact Hv.
  - destruct (LoadMap_step m c b) as [[m1 c1]|] eqn:Hstep; [|discriminate].
    apply IH. eapply index_valid_step; eassumption.
Qed.

Lemma index_valid_new name : index_valid (new_Module name).
Proof. intros b s p []. Qed.

(** ** Lookup *)

Lemma probe_stack_info_first_found m address info :
  probe_stack_info m address info = default info (first_found m address).
Proof.
  unfold probe_stack_info, first_found, probe_order. cbn [omap list_omap].
  destruct (ContainedRangeMap.RetrieveRange
              (stack_info_at m STACK_INFO_FRAME_DATA) address);
    [reflexivity|].
  destruct (ContainedRangeMap.RetrieveRange
              (stack_info_at m STACK_INFO_FPO) address);
    [reflexivity|].
  destruct (ContainedRangeMap.RetrieveRange
              (stack_info_at m STACK_INFO_STANDARD) address);
    reflexivity.
Qed.

Lemma LookupAddress_frame_info m address frame info :
  snd (LookupAddress m address frame (Some info))
  = Some (probe_stack_info m address info).
Proof.
  unfold LookupAddress.
  destruct (RangeMap.RetrieveRange (functions_ m) address) as [p|];
    [|reflexivity].
  destruct (objects m !! p) as [func|]; [|reflexivity].
  destruct (RangeMap.RetrieveRange (Function.lines func) address);
    reflexivity.
Qed.

(** C5.  When frame information is asked for, [LookupAddress] hands
    back the entry of the first of the frame-data, FPO and standard
    maps, in this order, that has a range for the address, and the
    caller's record when none has; this is so whatever the function
    index holds, and in particular when no function contains the
    address, where the frame is returned as it came. *)
Theorem stack_info_probed_in_order m address frame info :
  snd (LookupAddress m address frame (Some info))
  = Some (default info (first_found m address))
  /\ (RangeMap.RetrieveRange (functions_ m) address = None ->
      LookupAddress m address frame (Some info)
      = (frame, Some (default info (first_found m address)))).
Proof.
  split.
  - rewrite LookupAddress_frame_info, probe_stack_info_first_found.
    reflexivity.
  - intros Hnone. unfold LookupAddress. rewrite Hnone.
    rewrite probe_stack_info_first_found. reflexivity.
Qed.

Lemma stack_info_probed_in_order_witness :
  RangeMap.RetrieveRange
    (functions_ (loaded "app" ["STACK WIN 0 2000 10 0 0 0 0 0 0 fpo";
                               "STACK WIN 3 2000 10 0 0 0 0 0 0 std"]))
    0x2004 = None
  /\ LookupAddress
       (loaded "app" ["STACK WIN 0 2000 10 0 0 0 0 0 0 fpo";
                      "STACK WIN 3 2000 10 0 0 0 0 0 0 std"])
       0x2004 (empty_frame "app" 0 0x2004) (Some StackFrameInfo.default)
     = (empty_frame "app" 0 0x2004,
        Some (StackFrameInfo.make 0 0 0 0 0 0 "fpo")).
Proof.
  split; [reflexivity|].
  rewrite (proj2 (stack_info_probed_in_order
                    (loaded "app" ["STACK WIN 0 2000 10 0 0 0 0 0 0 fpo";
                                   "STACK WIN 3 2000 10 0 0 0 0 0 0 std"])
                    0x2004 (empty_frame "app" 0 0x2004)
                    StackFrameInfo.default) eq_refl).
  vm_compute. reflexivity.
Defined.

(** C6.  When the address resolves to a function and to a line of it
    whose file id is not in the file table, [LookupAddress] sets the
    function name and the line number and leaves the file name of the
    frame as it was. *)
Theorem unknown_file_id_keeps_line_number
    m address frame frame_info p func line :
  RangeMap.RetrieveRange (functions_ m) address = Some p ->
  objects m !! p = Some func ->
  RangeMap.RetrieveRange (Function.lines func) address = Some line ->
  files_ m !! Line.source_file_id line = None ->
  StackFrame.source_line (fst (LookupAddress m address frame frame_info))
  = Line.line line
  /\ StackFrame.source_file_name
       (fst (LookupAddress m address frame frame_info))
     = StackFrame.source_file_name frame
  /\ StackFrame.function_name
       (fst (LookupAddress m address frame frame_info))
     = Function.name func.
Proof.
  intros Hp Hfunc Hline Hfile. unfold LookupAddress.
  rewrite Hp, Hfunc, Hline, Hfile. repeat split.
Qed.

Lemma unknown_file_id_keeps_line_number_witness :
  RangeMap.RetrieveRange
    (functions_ (loaded "app" ["FILE 0 a.c"; "FUNC 1000 10 foo"; "1000 5 42 7"]))
    0x1002 = Some 0%nat
  /\ objects (loaded "app" ["FILE 0 a.c"; "FUNC 1000 10 foo"; "1000 5 42 7"])
       !! 0%nat
     = Some (Function.mk "foo" 0x1000 0x10 [(0x1000, 5, Line.mk 0x1000 5 7 42)])
  /\ files_ (loaded "app" ["FILE 0 a.c"; "FUNC 1000 10 foo"; "1000 5 42 7"])
       !! 7 = None
  /\ StackFrame.source_line
       (fst (LookupAddress
               (loaded "app" ["FILE 0 a.c"; "FUNC 1000 10 foo"; "1000 5 42 7"])
               0x1002 (StackFrame.mk "app" 0 0x1002 "" "before.c" 0) None))
     = 42
  /\ StackFrame.source_file_name
       (fst (LookupAddress
               (loaded "app" ["FILE 0 a.c"; "FUNC 1000 10 foo"; "1000 5 42 7"])
               0x1002 (StackFrame.mk "app" 0 0x1002 "" "before.c" 0) None))
     = "before.c"
  /\ StackFrame.function_name
       (fst (LookupAddress
               (loaded "app" ["FILE 0 a.c"; "FUNC 1000 10 foo"; "1000 5 42 7"])
               0x1002 (StackFrame.mk "app" 0 0x1002 "" "before.c" 0) None))
     = "foo".
Proof.
  split; [reflexivity|]. split; [reflexivity|]. split; [reflexivity|].
  apply (unknown_file_id_keeps_line_number
           (loaded "app" ["FILE 0 a.c"; "FUNC 1000 10 foo"; "1000 5 42 7"])
           0x1002 (StackFrame.mk "app" 0 0x1002 "" "before.c" 0) None 0%nat
           (Function.mk "foo" 0x1000 0x10 [(0x1000, 5, Line.mk 0x1000 5 7 42)])
           (Line.mk 0x1000 5 7 42));
    reflexivity.
Defined.

(** ** FILE records *)

Lemma record_line_advance n :
  forall s, TokenRule.record_line s = true ->
            TokenRule.record_line (CLib.advance n s) = true.
Proof.
  induction n as [|n IH]; intros s Hs; [destruct s; exact Hs|].
  destruct s as [|c r]; [exact Hs|]. simpl.
  apply IH. exact (record_line_tail _ _ Hs).
Qed.

(** C8.  A FILE record never makes the loop return, and touches the
    file table only.  With [id] what [atoi] reads in its first token
    and [name] its second token, the rest of the line: when the id is
    not negative and not yet in the table, the table gains
    [id -> name]; an entry that is there is never changed; and a record
    with fewer than two tokens or a negative id changes nothing.  On a
    record line the two tokens are those of the tokenizing rule, so
    that the name is the remainder of the line as it stands. *)
Theorem FILE_record_first_writer_wins m cur_func buffer :
  record_kind buffer = FILE_record ->
  let '(ok, tokens) := record_tokens buffer in
  let id := CLib.atoi (tok tokens 0) in
  LoadMap_step m cur_func buffer = Some (ParseFile m buffer, cur_func)
  /\ (name_ (ParseFile m buffer) = name_ m
      /\ functions_ (ParseFile m buffer) = functions_ m
      /\ objects (ParseFile m buffer) = objects m
      /\ stack_info_ (ParseFile m buffer) = stack_info_ m)
  /\ (ok = true -> 0 <= id -> files_ m !! id = None ->
      files_ (ParseFile m buffer) = <[id := tok tokens 1]> (files_ m))
  /\ (forall k name,
        files_ m !! k = Some name ->
        files_ (ParseFile m buffer) !! k = Some name)
  /\ (ok = false \/ id < 0 -> ParseFile m buffer = m)
  /\ (TokenRule.record_line buffer = true ->
      tokens = TokenRule.tokens 2 (CLib.advance 5 buffer)).
Proof.
  intros Hk.
  assert (Hfile : CLib.starts_with "FILE " buffer = true).
  { unfold record_kind in Hk.
    destruct (CLib.starts_with "FILE " buffer); [reflexivity|].
    destruct (CLib.starts_with "STACK " buffer); [discriminate|].
    destruct (CLib.starts_with "FUNC " buffer); discriminate. }
  unfold record_tokens. rewrite Hk. cbn [prefix_length token_count].
  pose proof (Tokenize_tokens (CLib.advance 5 buffer) 2) as Hrule.
  unfold LoadMap_step, ParseFile. rewrite Hfile.
  destruct (Tokenize (CLib.advance 5 buffer) 2) as [ok tokens].
  split; [reflexivity|].
  split.
  { destruct ok; cbn [negb]; [|repeat split].
    destruct (_ <? 0); [repeat split|].
    destruct (files_ m !! _); repeat split. }
  split.
  { intros -> Hid Hnew. cbn [negb].
    rewrite (proj2 (Z.ltb_ge _ _) Hid), Hnew. reflexivity. }
  split.
  { intros k name Hkn. destruct ok; cbn [negb]; [|exact Hkn].
    destruct (_ <? 0); [exact Hkn|].
    destruct (files_ m !! CLib.atoi (tok tokens 0)) eqn:Hid; [exact Hkn|].
    cbn [files_ set_files]. rewrite lookup_insert_ne; [exact Hkn|].
    intros <-. congruence. }
  split.
  { intros [-> | Hneg]; [reflexivity|].
    destruct ok; cbn [negb]; [|reflexivity].
    rewrite (proj2 (Z.ltb_lt _ _) Hneg). reflexivity. }
  intros Hline.
  specialize (Hrule ltac:(lia) (record_line_advance 5 _ Hline)).
  injection Hrule as _ ->. reflexivity.
Qed.

Lemma FILE_record_first_writer_wins_witness :
  record_kind (record "FILE 3 src/my app/main.c") = FILE_record
  /\ record_tokens (record "FILE 3 src/my app/main.c")
     = (true, ["3"; "src/my app/main.c"])
  /\ files_ (new_Module "app") !! 3 = None
  /\ files_ (ParseFile (new_Module "app") (record "FILE 3 src/my app/main.c"))
     = <[3 := "src/my app/main.c"]> (files_ (new_Module "app"))
  /\ files_ (ParseFile
               (ParseFile (new_Module "app")
                  (record "FILE 3 src/my app/main.c"))
               (record "FILE 3 other.c")) !! 3
     = Some "src/my app/main.c"
  /\ ParseFile (new_Module "app") (record "FILE -1 neg.c") = new_Module "app"
  /\ ParseFile (new_Module "app") (record "FILE 4") = new_Module "app".
Proof.
  pose proof (FILE_record_first_writer_wins (new_Module "app") None
                (record "FILE 3 src/my app/main.c") eq_refl) as H1.
  pose proof (FILE_record_first_writer_wins
                (ParseFile (new_Module "app")
                   (record "FILE 3 src/my app/main.c"))
                None (record "FILE 3 other.c") eq_refl) as H2.
  pose proof (FILE_record_first_writer_wins (new_Module "app") None
                (record "FILE -1 neg.c") eq_refl) as H3.
  pose proof (FILE_record_first_writer_wins (new_Module "app") None
                (record "FILE 4") eq_refl) as H4.
  change (record_tokens (record "FILE 3 src/my app/main.c"))
    with (true, ["3"; "src/my app/main.c"]) in H1.
  change (record_tokens (record "FILE 3 other.c"))
    with (true, ["3"; "other.c"]) in H2.
  change (record_tokens (record "FILE -1 neg.c"))
    with (true, ["-1"; "neg.c"]) in H3.
  change (record_tokens (record "FILE 4")) with (false, ["4"]) in H4.
  cbv beta iota zeta in H1, H2, H3, H4.
  destruct H1 as (_ & _ & Hnew & _).
  destruct H2 as (_ & _ & _ & Hkeep & _).
  destruct H3 as (_ & _ & _ & _ & Hneg & _).
  destruct H4 as (_ & _ & _ & _ & Hshort & _).
  split; [reflexivity|]. split; [reflexivity|]. split; [reflexivity|].
  split; [apply Hnew; [reflexivity | vm_compute; discriminate | reflexivity]|].
  split; [apply Hkeep; vm_compute; reflexivity|].
  split; [apply Hneg; right; vm_compute; reflexivity|].
  apply Hshort. left. reflexivity.
Defined.

(** ** The file handle *)

(** The handles [LoadMap] holds when it returns: as before when the
    file could not be opened or the loop came to its end, and one more
    when a turn of the loop returned. *)
Lemma LoadMap_handles w m path :
  let '(ok, _, w') := LoadMap w m path in
  match disk w !! path with
  | None => ok = false /\ open_handles w' = open_handles w
  | Some content =>
      ok = fst (LoadMap_loop m None (buffers content))
      /\ open_handles w'
         = if ok then open_handles w else S (open_handles w)
  end.
Proof.
  unfold LoadMap, fopen.
  destruct (disk w !! path) as [content|]; [|split; reflexivity].
  destruct (LoadMap_loop m None (buffers content)) as [[|] m'];
    split; reflexivity.
Qed.

(** C9 fails on the code.  On a symbol file whose first line is a line
    record, [LoadModule] returns false and the handle that [LoadMap]
    opened is still open: the [return false] inside the loop does not
    pass by [fclose]. *)
Theorem abort_leaves_handle_open :
  open_handles (world_with "app.sym" ["1000 5 42 0"]) = 0%nat
  /\ LoadModule (world_with "app.sym" ["1000 5 42 0"]) ∅ "app" "app.sym"
     = (false, ∅,
        mkWorld (disk (world_with "app.sym" ["1000 5 42 0"])) 1).
Proof. split; vm_compute; reflexivity. Qed.

(** ** The relative address *)

(** C10.  For a frame of a registered module, [FillSourceLineInfo]
    looks up the difference of the instruction address and the module
    base as an unsigned 64-bit number: when the instruction lies below
    the base the difference wraps around by 2^64, and the lookup is
    made with the wrapped address. *)
Theorem relative_address_wraps modules frame frame_info module :
  modules !! StackFrame.module_name frame = Some module ->
  0 <= StackFrame.instruction frame < 2 ^ 64 ->
  0 <= StackFrame.module_base frame < 2 ^ 64 ->
  0 <= wrapped_difference (StackFrame.instruction frame)
         (StackFrame.module_base frame) < 2 ^ 64
  /\ FillSourceLineInfo modules frame frame_info
     = LookupAddress module
         (wrapped_difference (StackFrame.instruction frame)
            (StackFrame.module_base frame))
         frame frame_info.
Proof.
  intros Hreg Hi Hb. unfold FillSourceLineInfo, wrapped_difference, CLib.to_u64.
  rewrite Hreg.
  destruct (Z.ltb_spec (StackFrame.instruction frame)
              (StackFrame.module_base frame)) as [Hlt|Hge].
  - split; [lia|].
    replace ((StackFrame.instruction frame - StackFrame.module_base frame)
             mod 2 ^ 64)
      with (StackFrame.instruction frame - StackFrame.module_base frame
            + 2 ^ 64); [reflexivity|].
    rewrite <- (Z_mod_plus_full _ 1 (2 ^ 64)), Z.mod_small by lia. lia.
  - split; [lia|]. rewrite Z.mod_small by lia. reflexivity.
Qed.

Lemma relative_address_wraps_witness :
  ({[ "app" := loaded "app" ["FUNC fffffffffffffff0 10 high"] ]} : ModuleMap)
    !! "app" = Some (loaded "app" ["FUNC fffffffffffffff0 10 high"])
  /\ wrapped_difference 0x10 0x20 = 0xfffffffffffffff0
  /\ FillSourceLineInfo
       {[ "app" := loaded "app" ["FUNC fffffffffffffff0 10 high"] ]}
       (empty_frame "app" 0x20 0x10) None
     = LookupAddress (loaded "app" ["FUNC fffffffffffffff0 10 high"])
         0xfffffffffffffff0 (empty_frame "app" 0x20 0x10) None
  /\ StackFrame.function_name
       (fst (FillSourceLineInfo
               {[ "app" := loaded "app" ["FUNC fffffffffffffff0 10 high"] ]}
               (empty_frame "app" 0x20 0x10) None))
     = "high".
Proof.
  split; [reflexivity|]. split; [reflexivity|].
  destruct (relative_address_wraps
              {[ "app" := loaded "app" ["FUNC fffffffffffffff0 10 high"] ]}
              (empty_frame "app" 0x20 0x10) None
              (loaded "app" ["FUNC fffffffffffffff0 10 high"]))
    as [_ Heq];
    [reflexivity | vm_compute; split; [discriminate|reflexivity]
    | vm_compute; split; [discriminate|reflexivity] |].
  split; [exact Heq|]. rewrite Heq. vm_compute. reflexivity.
Defined.

(** ** The last token *)

Section LastToken.

Import TokenRule.

Lemma append_cons c r s :
  String.append (String c r) s = String c (String.append r s).
Proof. reflexivity. Qed.

Lemma append_empty s : String.append EmptyString s = s.
Proof. reflexivity. Qed.

Lemma take_word_spaced w s :
  no_separator w = true ->
  take_word (String.append w (String CLib.SP s)) = (w, s).
Proof.
  induction w as [|c r IH]; rewrite ?append_cons, ?append_empty;
    cbn [take_word no_separator].
  - reflexivity.
  - intros [Hc Hr]%andb_prop. apply negb_true_iff in Hc.
    rewrite Hc, (IH Hr). reflexivity.
Qed.

Lemma next_token_spaced w s :
  word w = true ->
  next_token (String.append w (String CLib.SP s)) = Some (w, s).
Proof.
  destruct w as [|c r]; [discriminate|]. unfold word. intros Hw.
  pose proof (take_word_spaced (String c r) s Hw) as Ht.
  rewrite append_cons in *. cbn [next_token].
  cbn [no_separator] in Hw. apply andb_prop in Hw as [Hc _].
  apply negb_true_iff in Hc. rewrite Hc. f_equal. exact Ht.
Qed.

Lemma trim_newline_app p eol :
  no_newline p = true -> all_newline eol = true ->
  trim_newline (String.append p eol) = p.
Proof.
  intros Hp He. induction p as [|c r IH];
    rewrite ?append_cons, ?append_empty.
  - apply trim_all_newline, He.
  - cbn [no_newline] in Hp. apply andb_prop in Hp as [Hc Hr].
    apply negb_true_iff in Hc.
    rewrite (trim_not_newline _ _ Hc), (IH Hr). reflexivity.
Qed.

Lemma record_line_app p eol :
  no_newline p = true -> all_newline eol = true ->
  record_line (String.append p eol) = true.
Proof.
  intros Hp He. induction p as [|c r IH];
    rewrite ?append_cons, ?append_empty.
  - apply all_newline_record_line, He.
  - cbn [no_newline] in Hp. apply andb_prop in Hp as [Hc Hr].
    apply negb_true_iff in Hc. cbn [record_line]. rewrite Hc. exact (IH Hr).
Qed.

Lemma no_separator_no_newline w : no_separator w = true -> no_newline w = true.
Proof.
  induction w as [|c r IH]; [reflexivity|]. cbn [no_separator no_newline].
  intros [Hc Hr]%andb_prop. rewrite (IH Hr), andb_true_r.
  apply negb_true_iff in Hc. apply negb_true_iff.
  destruct (is_newline c) eqn:Hn; [|reflexivity].
  apply newline_is_separator in Hn. congruence.
Qed.

Lemma record_line_prefixed w s :
  no_newline w = true -> record_line s = true ->
  record_line (String.append w (String CLib.SP s)) = true.
Proof.
  intros Hw Hs. induction w as [|c r IH];
    rewrite ?append_cons, ?append_empty.
  - exact Hs.
  - cbn [no_newline] in Hw. apply andb_prop in Hw as [Hc Hr].
    apply negb_true_iff in Hc. cbn [record_line]. rewrite Hc. exact (IH Hr).
Qed.

Lemma word_no_newline w : word w = true -> no_newline w = true.
Proof.
  destruct w; [discriminate|]. unfold word. apply no_separator_no_newline.
Qed.

Lemma record_line_spaced words last :
  Forall (fun w => word w = true) words ->
  record_line last = true ->
  record_line (spaced words last) = true.
Proof.
  intros Hw Hl. induction Hw as [|w ws Hword _ IH]; [exact Hl|].
  cbn [spaced fold_right].
  apply record_line_prefixed; [apply word_no_newline, Hword | exact IH].
Qed.

Lemma tokens_spaced words last :
  Forall (fun w => word w = true) words ->
  tokens (S (length words)) (spaced words last) = words ++ tokens 1 last.
Proof.
  intros Hw. induction Hw as [|w ws Hword _ IH]; [reflexivity|].
  cbn [spaced fold_right]. fold (spaced ws last).
  change (tokens (S (length (w :: ws))) ?s)
    with (match next_token s with
          | None => []
          | Some (t, remainder) => t :: tokens (S (length ws)) remainder
          end).
  rewrite (next_token_spaced _ _ Hword), IH. reflexivity.
Qed.

End LastToken.

(** C7.  On a record line, and for a token count [N] of at least 2,
    [Tokenize] returns the tokens of the tokenizing rule, which are at
    most [N]: the first [N - 1] split at runs of space, carriage return
    and newline, and then the remainder of the line without its
    trailing newline as the last token, whole.  So a line of [N - 1]
    words and a last field, each followed by one space, gives back the
    words and the last field as it stands, spaces included: this is
    what keeps the program string of a STACK WIN record in one piece. *)
Theorem Tokenize_keeps_remainder_whole :
  (forall line max_tokens,
      2 <= max_tokens < 2 ^ 32 ->
      Z.of_nat (length (snd (Tokenize line max_tokens))) <= max_tokens
      /\ (TokenRule.record_line line = true ->
          Tokenize line max_tokens
          = (Z.of_nat (length (TokenRule.tokens (Z.to_nat max_tokens) line))
               =? max_tokens,
             TokenRule.tokens (Z.to_nat max_tokens) line)))
  /\ (forall words last eol max_tokens,
        2 <= max_tokens < 2 ^ 32 ->
        Z.of_nat (length words) = max_tokens - 1 ->
        Forall (fun w => TokenRule.word w = true) words ->
        last <> EmptyString ->
        TokenRule.no_newline last = true ->
        TokenRule.all_newline eol = true ->
        Tokenize (TokenRule.spaced words (String.append last eol)) max_tokens
        = (true, words ++ [last])).
Proof.
  split.
  - intros line max_tokens HN. split.
    + rewrite Tokenize_cut by lia. cbn [snd].
      pose proof (tokens_with_length cut (Z.to_nat max_tokens) line). lia.
    + intros Hline. apply Tokenize_tokens; assumption.
  - intros words last eol max_tokens HN Hlen Hwords Hlast Hnl Heol.
    rewrite Tokenize_tokens;
      [| exact HN
       | apply record_line_spaced;
         [exact Hwords | apply record_line_app; assumption] ].
    replace (Z.to_nat max_tokens) with (S (length words)) by lia.
    rewrite (tokens_spaced _ _ Hwords).
    cbn [TokenRule.tokens TokenRule.tokens_with]. unfold TokenRule.trimmed.
    rewrite (trim_newline_app _ _ Hnl Heol).
    destruct last as [|c r]; [contradiction|].
    rewrite length_app. cbn [length].
    rewrite (proj2 (Z.eqb_eq _ _)) by lia. reflexivity.
Qed.

(** Outside the contract of [Tokenize]: a carriage return inside the
    last field ends the token, as [strtok] cuts there. *)
Example carriage_return_inside_last_field :
  Tokenize (String.append "0 a" (String CLib.CR (record "b"))) 2
  = (true, ["0"; "a"]).
Proof. reflexivity. Qed.

Lemma Tokenize_keeps_remainder_whole_witness :
  TokenRule.record_line
    (record "WIN 4 1000 10 0 0 0 0 0 0 $T0 .raSearch = $eip $T0 ^ =") = true
  /\ Tokenize (record "WIN 4 1000 10 0 0 0 0 0 0 $T0 .raSearch = $eip $T0 ^ =")
       11
     = (true, ["WIN"; "4"; "1000"; "10"; "0"; "0"; "0"; "0"; "0"; "0";
               "$T0 .raSearch = $eip $T0 ^ ="])
  /\ TokenRule.spaced ["FILE"; "0"] (record "my app/main.c")
     = record "FILE 0 my app/main.c"
  /\ Tokenize (CLib.advance 5 (record "FILE 0 my app/main.c")) 2
     = (true, ["0"; "my app/main.c"]).
Proof.
  destruct Tokenize_keeps_remainder_whole as [Hrule Hspaced].
  split; [reflexivity|].
  split.
  - destruct (Hrule (record "WIN 4 1000 10 0 0 0 0 0 0 $T0 .raSearch = $eip $T0 ^ =")
                11) as [_ Heq];
      [vm_compute; split; [discriminate|reflexivity] |].
    rewrite (Heq eq_refl). vm_compute. reflexivity.
  - split; [reflexivity|].
    apply (Hspaced ["0"] "my app/main.c" end_of_line 2);
      [vm_compute; split; [discriminate|reflexivity] | reflexivity
      | repeat constructor | discriminate | reflexivity | reflexivity].
Defined.

(** * Further properties of the resolver *)

(** ** When a turn of the loop returns *)

(** X1.  A turn of the loop of [LoadMap] returns false exactly on the
    structural errors: too few tokens in a FUNC, STACK or line record,
    a STACK record whose platform is not WIN or whose type is not an
    index of [stack_info_], a line record whose line number is not
    positive, a line record with no current function.  What the module
    holds has no part in it. *)
Theorem loop_returns_on_structural_errors_only m cur_func buffer :
  LoadMap_step m cur_func buffer = None <-> structural_error cur_func buffer.
Proof.
  split; [apply return_is_structural_error | apply structural_error_returns].
Qed.

Lemma loop_returns_on_structural_errors_only_witness :
  structural_error None (record "1000 5 42 0")
  /\ LoadMap_step (new_Module "app") None (record "1000 5 42 0") = None
  /\ LoadMap_step (loaded "app" stored_records) None (record "1000 5 42 0")
     = None.
Proof.
  assert (Herr : structural_error None (record "1000 5 42 0"))
    by (apply no_current_function; reflexivity).
  split; [exact Herr|].
  split;
    apply (proj2 (loop_returns_on_structural_errors_only _ None
                    (record "1000 5 42 0")) Herr).
Defined.

(** ** The shape of the tokens *)

Lemma take_word_no_separator s :
  TokenRule.no_separator (fst (TokenRule.take_word s)) = true.
Proof.
  induction s as [|c r IH]; [reflexivity|].
  cbn [TokenRule.take_word].
  destruct (TokenRule.is_separator c) eqn:Hc; [reflexivity|].
  cbn [fst TokenRule.no_separator]. rewrite Hc, IH. reflexivity.
Qed.

Lemma next_token_is_word s :
  forall t k, TokenRule.next_token s = Some (t, k) -> TokenRule.word t = true.
Proof.
  induction s as [|c r IH]; intros t k; cbn [TokenRule.next_token];
    [discriminate|].
  destruct (TokenRule.is_separator c) eqn:Hc; [apply IH|].
  cbn [TokenRule.take_word]. rewrite Hc. intros [= <- _].
  cbn [TokenRule.word TokenRule.no_separator].
  rewrite Hc, take_word_no_separator. reflexivity.
Qed.

Lemma span_cr_lf_no_newline s :
  TokenRule.no_newline (fst (CLib.span_token cr_lf s)) = true.
Proof.
  induction s as [|c r IH]; [reflexivity|].
  cbn [CLib.span_token]. rewrite is_delim_cr_lf.
  destruct (TokenRule.is_newline c) eqn:Hc; [reflexivity|].
  destruct (CLib.span_token cr_lf r) as [t k].
  cbn [fst TokenRule.no_newline] in *. rewrite Hc, IH. reflexivity.
Qed.

Lemma cut_shape s t :
  cut s = Some t -> t <> EmptyString /\ TokenRule.no_newline t = true.
Proof.
  unfold cut, CLib.strtok.
  induction s as [|c r IH]; cbn [CLib.skip_delims]; [discriminate|].
  rewrite is_delim_cr_lf.
  destruct (TokenRule.is_newline c) eqn:Hc; [exact IH|].
  pose proof (span_cr_lf_no_newline (String c r)) as Hn.
  cbn [CLib.span_token] in *. rewrite is_delim_cr_lf, Hc in *.
  destruct (CLib.span_token cr_lf r) as [t' k].
  intros [= <-]. split; [discriminate|exact Hn].
Qed.

Lemma word_not_empty t :
  TokenRule.word t = true -> t <> EmptyString /\ TokenRule.no_newline t = true.
Proof.
  intros Hw. split; [intros ->; discriminate | apply word_no_newline, Hw].
Qed.

Lemma tokens_with_cut_shape n :
  forall s,
    Forall (fun t => t <> EmptyString /\ TokenRule.no_newline t = true)
      (TokenRule.tokens_with cut n s)
    /\ Forall (fun t => TokenRule.word t = true)
         (take (n - 1) (TokenRule.tokens_with cut n s)).
Proof.
  induction n as [|n IH]; intros s; [split; constructor|].
  destruct n as [|n].
  - cbn [TokenRule.tokens_with]. split; [|constructor].
    destruct (cut s) as [t|] eqn:Ht; [|constructor].
    constructor; [exact (cut_shape _ _ Ht)|constructor].
  - cbn [TokenRule.tokens_with].
    destruct (TokenRule.next_token s) as [[t k]|] eqn:Ht;
      [|split; constructor].
    destruct (IH k) as [Hall Hfirst].
    pose proof (next_token_is_word _ _ _ Ht) as Hw.
    replace (S (S n) - 1)%nat with (S n) by lia.
    replace (S n - 1)%nat with n in Hfirst by lia.
    split; [constructor; [exact (word_not_empty _ Hw)|exact Hall]|].
    cbn [take]. constructor; assumption.
Qed.

(** X2.  Whatever the line, and for a token count [N] of at least 2,
    [Tokenize] returns no empty token and no token that holds a
    carriage return or a newline, and none of the first [N - 1] tokens
    holds a separator. *)
Theorem Tokenize_token_shape line max_tokens :
  2 <= max_tokens ->
  Forall (fun t => t <> EmptyString /\ TokenRule.no_newline t = true)
    (snd (Tokenize line max_tokens))
  /\ Forall (fun t => TokenRule.word t = true)
       (take (Z.to_nat max_tokens - 1) (snd (Tokenize line max_tokens))).
Proof.
  intros HN. rewrite Tokenize_cut by exact HN. cbn [snd].
  apply tokens_with_cut_shape.
Qed.

Lemma Tokenize_token_shape_witness :
  2 <= 3
  /\ snd (Tokenize (record "  1000   10  operator new (unsigned int) ") 3)
     = ["1000"; "10"; " operator new (unsigned int) "]
  /\ Forall (fun t => t <> EmptyString /\ TokenRule.no_newline t = true)
       (snd (Tokenize (record "  1000   10  operator new (unsigned int) ") 3))
  /\ Forall (fun t => TokenRule.word t = true)
       (take 2 (snd (Tokenize
                       (record "  1000   10  operator new (unsigned int) ") 3))).
Proof.
  split; [lia|]. split; [reflexivity|].
  apply (Tokenize_token_shape
           (record "  1000   10  operator new (unsigned int) ") 3).
  lia.
Defined.

(** ** Blank lines *)

Lemma blank_line_no_token s :
  blank_line s = true -> TokenRule.next_token s = None.
Proof.
  induction s as [|c r IH]; [reflexivity|].
  cbn [blank_line TokenRule.next_token].
  intros [Hc Hr]%andb_prop. rewrite Hc. exact (IH Hr).
Qed.

Lemma Tokenize_blank s max_tokens :
  blank_line s = true ->
  Tokenize s max_tokens = (0 =? CLib.to_u32 max_tokens, []).
Proof.
  intros Hs. unfold Tokenize.
  rewrite strtok_next_token, (blank_line_no_token _ Hs), Tokenize_loop_null.
  cbn [after_loop]. destruct (max_tokens =? 0); reflexivity.
Qed.

Lemma blank_line_kind s : blank_line s = true -> record_kind s = line_record.
Proof.
  destruct s as [|c r]; [reflexivity|]. cbn [blank_line].
  intros [Hc _]%andb_prop. unfold TokenRule.is_separator in Hc.
  apply orb_true_iff in Hc as [Hc|Hc];
    [apply orb_true_iff in Hc as [Hc|Hc]|];
    apply Ascii.eqb_eq in Hc; subst c; reflexivity.
Qed.

(** X3.  A line that holds nothing but spaces, carriage returns and
    newlines has no token, and the loop of [LoadMap] returns false on
    it wherever it stands in the file, with or without a current
    function. *)
Theorem blank_line_aborts_load buffer :
  blank_line buffer = true ->
  (forall max_tokens,
      1 <= max_tokens < 2 ^ 32 -> Tokenize buffer max_tokens = (false, []))
  /\ (forall m cur_func rest,
        LoadMap_loop m cur_func (buffer :: rest) = (false, m)).
Proof.
  intros Hb. split.
  - intros N HN. rewrite (Tokenize_blank _ _ Hb).
    unfold CLib.to_u32. rewrite Z.mod_small by lia.
    rewrite (proj2 (Z.eqb_neq _ _)) by lia. reflexivity.
  - intros m cur_func rest. apply LoadMap_loop_abort.
    pose proof (blank_line_kind _ Hb) as Hk. kind_cases buffer.
    destruct cur_func; [|reflexivity].
    unfold ParseLine. rewrite (Tokenize_blank _ _ Hb). reflexivity.
Qed.

Lemma blank_line_aborts_load_witness :
  blank_line end_of_line = true
  /\ buffers (symbol_file ["FUNC 1000 10 foo"; ""; "1000 5 42 0"])
     = [record "FUNC 1000 10 foo"; end_of_line; record "1000 5 42 0"]
  /\ LoadMap_loop (loaded "app" ["FUNC 1000 10 foo"]) (Some 0%nat)
       [end_of_line; record "1000 5 42 0"]
     = (false, loaded "app" ["FUNC 1000 10 foo"])
  /\ fst (fst (LoadModule
                 (world_with "app.sym" ["FUNC 1000 10 foo"; ""; "1000 5 42 0"])
                 ∅ "app" "app.sym")) = false.
Proof.
  split; [reflexivity|]. split; [reflexivity|].
  split; [|vm_compute; reflexivity].
  apply (proj2 (blank_line_aborts_load end_of_line eq_refl)).
Defined.

(** ** Lines longer than the buffer *)

Lemma concat_lines_cons l ls :
  concat_lines (l :: ls) = String.append l (concat_lines ls).
Proof. reflexivity. Qed.

Lemma fgets_lines_concat cap :
  forall stream room,
    concat_lines (fgets_lines cap room stream) = stream.
Proof.
  induction stream as [|c r IH]; intros room; [reflexivity|].
  cbn [fgets_lines].
  destruct (Ascii.eqb c CLib.LF || Nat.leb room 1).
  - rewrite concat_lines_cons, IH. reflexivity.
  - specialize (IH (Nat.pred room)).
    destruct (fgets_lines cap (Nat.pred room) r) as [|l ls].
    + cbn in IH. subst r. reflexivity.
    + rewrite concat_lines_cons in *. rewrite append_cons, IH. reflexivity.
Qed.

Lemma fgets_lines_fit cap :
  (1 <= cap)%nat ->
  forall stream room,
    (1 <= room)%nat -> chunks_fit cap room (fgets_lines cap room stream).
Proof.
  intros Hcap.
  induction stream as [|c r IH]; intros room Hroom; [exact I|].
  cbn [fgets_lines].
  destruct (Ascii.eqb c CLib.LF || Nat.leb room 1) eqn:Hend.
  - split; [cbn; lia|].
    specialize (IH cap Hcap).
    destruct (fgets_lines cap cap r) as [|l ls]; [constructor|].
    destruct IH as [Hl Hls]. constructor; assumption.
  - apply orb_false_iff in Hend as [_ Hr]. apply Nat.leb_gt in Hr.
    specialize (IH (Nat.pred room) ltac:(lia)).
    destruct (fgets_lines cap (Nat.pred room) r) as [|l ls].
    + split; [cbn; lia|constructor].
    + destruct IH as [Hl Hls]. split; [cbn; lia|exact Hls].
Qed.

Lemma fgets_lines_newline_last cap :
  forall stream room,
    Forall (fun l => newline_last l = true) (fgets_lines cap room stream).
Proof.
  induction stream as [|c r IH]; intros room; [constructor|].
  cbn [fgets_lines].
  destruct (Ascii.eqb c CLib.LF) eqn:Hc; cbn [orb].
  - constructor; [cbn; rewrite Hc; reflexivity|apply IH].
  - destruct (Nat.leb room 1).
    + constructor; [cbn; rewrite Hc; reflexivity|apply IH].
    + specialize (IH (Nat.pred room)).
      destruct (fgets_lines cap (Nat.pred room) r) as [|l ls].
      * constructor; [cbn; rewrite Hc; reflexivity|constructor].
      * inversion IH as [|? ? Hl Hls]; subst.
        constructor; [cbn [newline_last]; rewrite Hc; exact Hl|exact Hls].
Qed.

(** X4.  The lines that the loop of [LoadMap] reads with [fgets] into
    its buffer of 1024 characters are the content of the file cut in
    pieces: put end to end they give the content back, each holds
    between 1 and 1023 characters, and a newline is only ever the last
    character of a piece.  So a line of more than 1023 characters
    reaches the loop as several lines. *)
Theorem fgets_lines_cut_the_content content :
  let chunks :=
    fgets_lines (Nat.pred buffer_size) (Nat.pred buffer_size) content in
  concat_lines chunks = content
  /\ Forall (fun l => (1 <= String.length l <= 1023)%nat) chunks
  /\ Forall (fun l => newline_last l = true) chunks.
Proof.
  cbv zeta. split; [apply fgets_lines_concat|].
  split; [|apply fgets_lines_newline_last].
  change (Nat.pred buffer_size) with 1023%nat.
  pose proof (fgets_lines_fit 1023 ltac:(lia) content 1023 ltac:(lia)) as H.
  destruct (fgets_lines 1023 1023 content) as [|l ls]; [constructor|].
  destruct H as [Hl Hls]. constructor; assumption.
Qed.

(** ** The registry under [LoadModule] *)

(** X5.  Whatever its outcome, [LoadModule] leaves the entry of every
    other name as it was and never replaces an entry that is there: a
    module once registered stays registered, with the same data. *)
Theorem LoadModule_keeps_other_modules w modules name path other :
  let modules' := snd (fst (LoadModule w modules name path)) in
  (other <> name -> modules' !! other = modules !! other)
  /\ (forall module,
        modules !! other = Some module -> modules' !! other = Some module)
  /\ (HasModule modules other = true -> HasModule modules' other = true).
Proof.
  cbv zeta.
  assert (Hkeep : forall module,
             modules !! other = Some module ->
             snd (fst (LoadModule w modules name path)) !! other
             = Some module).
  { intros module Hm. unfold LoadModule.
    destruct (modules !! name) as [old|] eqn:Hreg; [exact Hm|].
    destruct (LoadMap w (new_Module name) path) as [[[|] built] w'];
      [|exact Hm].
    cbn [fst snd]. rewrite lookup_insert_ne; [exact Hm|congruence]. }
  split; [|split; [exact Hkeep|]].
  - intros Hne. unfold LoadModule.
    destruct (modules !! name) as [old|]; [reflexivity|].
    destruct (LoadMap w (new_Module name) path) as [[[|] built] w'];
      [|reflexivity].
    cbn [fst snd]. apply lookup_insert_ne. congruence.
  - unfold HasModule. intros [module Hm]%bool_decide_eq_true.
    apply bool_decide_eq_true. exists module. exact (Hkeep _ Hm).
Qed.

Lemma LoadModule_keeps_other_modules_witness :
  "lib" <> "app"
  /\ ({[ "lib" := loaded "lib" stored_records ]} : ModuleMap) !! "lib"
     = Some (loaded "lib" stored_records)
  /\ fst (fst (LoadModule (world_with "app.sym" example_records)
                 {[ "lib" := loaded "lib" stored_records ]} "app" "app.sym"))
     = true
  /\ snd (fst (LoadModule (world_with "app.sym" example_records)
                 {[ "lib" := loaded "lib" stored_records ]} "app" "app.sym"))
       !! "lib"
     = Some (loaded "lib" stored_records).
Proof.
  split; [discriminate|]. split; [reflexivity|].
  split; [vm_compute; reflexivity|].
  apply (proj1 (proj2 (LoadModule_keeps_other_modules
                         (world_with "app.sym" example_records)
                         {[ "lib" := loaded "lib" stored_records ]}
                         "app" "app.sym" "lib"))).
  reflexivity.
Defined.

(** ** What a lookup leaves alone *)

Lemma LookupAddress_inputs m address frame frame_info :
  StackFrame.module_name (fst (LookupAddress m address frame frame_info))
  = StackFrame.module_name frame
  /\ StackFrame.module_base (fst (LookupAddress m address frame frame_info))
     = StackFrame.module_base frame
  /\ StackFrame.instruction (fst (LookupAddress m address frame frame_info))
     = StackFrame.instruction frame
  /\ (snd (LookupAddress m address frame frame_info) = None
      <-> frame_info = None).
Proof.
  unfold LookupAddress.
  assert (Hinfo : (match frame_info with
                   | Some info => Some (probe_stack_info m address info)
                   | None => None
                   end = None) <-> frame_info = None)
    by (destruct frame_info; split; congruence).
  destruct (RangeMap.RetrieveRange (functions_ m) address) as [p|];
    [|repeat split; apply Hinfo].
  destruct (objects m !! p) as [func|]; [|repeat split; apply Hinfo].
  destruct (RangeMap.RetrieveRange (Function.lines func) address) as [line|];
    [|repeat split; apply Hinfo].
  destruct (files_ m !! Line.source_file_id line);
    repeat split; apply Hinfo.
Qed.

(** X6.  [FillSourceLineInfo] never changes the module name, the
    module base or the instruction address of a frame, hands back frame
    information exactly when it was given some, and for a module name
    that is not registered it returns the frame and the frame
    information as they came. *)
Theorem FillSourceLineInfo_leaves_inputs modules frame frame_info :
  StackFrame.module_name (fst (FillSourceLineInfo modules frame frame_info))
  = StackFrame.module_name frame
  /\ StackFrame.module_base (fst (FillSourceLineInfo modules frame frame_info))
     = StackFrame.module_base frame
  /\ StackFrame.instruction (fst (FillSourceLineInfo modules frame frame_info))
     = StackFrame.instruction frame
  /\ (snd (FillSourceLineInfo modules frame frame_info) = None
      <-> frame_info = None)
  /\ (HasModule modules (StackFrame.module_name frame) = false ->
      FillSourceLineInfo modules frame frame_info = (frame, frame_info)).
Proof.
  unfold FillSourceLineInfo, HasModule.
  destruct (modules !! StackFrame.module_name frame) as [module|] eqn:Hm.
  - destruct (LookupAddress_inputs module
                (CLib.to_u64 (StackFrame.instruction frame
                              - StackFrame.module_base frame))
                frame frame_info) as (H1 & H2 & H3 & H4).
    repeat (split; [assumption|]).
    intros Hfalse. apply bool_decide_eq_false in Hfalse.
    exfalso. apply Hfalse. eexists; reflexivity.
  - repeat split; intros H; exact H.
Qed.

Lemma FillSourceLineInfo_leaves_inputs_witness :
  HasModule ({[ "app" := loaded "app" example_records ]} : ModuleMap) "lib"
  = false
  /\ FillSourceLineInfo {[ "app" := loaded "app" example_records ]}
       (empty_frame "lib" 0x400000 0x401000) (Some StackFrameInfo.default)
     = (empty_frame "lib" 0x400000 0x401000, Some StackFrameInfo.default)
  /\ snd (FillSourceLineInfo {[ "app" := loaded "app" example_records ]}
            (empty_frame "app" 0x400000 0x401000) None) = None.
Proof.
  split; [reflexivity|]. split.
  - apply (FillSourceLineInfo_leaves_inputs
             {[ "app" := loaded "app" example_records ]}
             (empty_frame "lib" 0x400000 0x401000)
             (Some StackFrameInfo.default)).
    reflexivity.
  - apply (FillSourceLineInfo_leaves_inputs
             {[ "app" := loaded "app" example_records ]}
             (empty_frame "app" 0x400000 0x401000) None).
    reflexivity.
Defined.

(** ** The handles of [LoadModule] *)

(** X7.  [LoadModule] never touches the files, and it leaves the
    number of open handles as it was whenever it returns true, whenever
    the name is already registered and whenever the file cannot be
    opened; in the one remaining case, a free name and a file that
    opens but on which the loop of [LoadMap] returns false, it returns
    false with exactly one handle more open.  When the loop comes to
    its end instead, it returns true with the handles as they were. *)
Theorem LoadModule_handles w modules name path :
  let '(ok, _, w') := LoadModule w modules name path in
  disk w' = disk w
  /\ (ok = true -> open_handles w' = open_handles w)
  /\ (is_Some (modules !! name) \/ disk w !! path = None -> w' = w)
  /\ (open_handles w' = open_handles w
      \/ ok = false /\ open_handles w' = S (open_handles w))
  /\ (forall content,
        modules !! name = None ->
        disk w !! path = Some content ->
        fst (LoadMap_loop (new_Module name) None (buffers content)) = false ->
        ok = false /\ open_handles w' = S (open_handles w))
  /\ (forall content,
        modules !! name = None ->
        disk w !! path = Some content ->
        fst (LoadMap_loop (new_Module name) None (buffers content)) = true ->
        ok = true /\ open_handles w' = open_handles w).
Proof.
  unfold LoadModule.
  destruct (modules !! name) as [old|] eqn:Hreg.
  { repeat split; auto; intros; congruence. }
  unfold LoadMap, fopen.
  destruct (disk w !! path) as [content|] eqn:Hdisk.
  - destruct (LoadMap_loop (new_Module name) None (buffers content))
      as [[|] built] eqn:Hloop; cbn [disk open_handles fclose Nat.pred].
    + split; [reflexivity|]. split; [reflexivity|].
      split; [intros [[x Hx]|Hx]; discriminate|].
      split; [left; reflexivity|].
      split; intros c _ [= <-]; rewrite Hloop; cbn [fst]; [discriminate|].
      intros _. split; reflexivity.
    + split; [reflexivity|]. split; [discriminate|].
      split; [intros [[x Hx]|Hx]; discriminate|].
      split; [right; split; reflexivity|].
      split; intros c _ [= <-]; rewrite Hloop; cbn [fst]; [|discriminate].
      intros _. split; reflexivity.
  - repeat split; auto; intros; congruence.
Qed.

Lemma LoadModule_handles_witness :
  fst (fst (LoadModule (world_with "app.sym" example_records) ∅
              "app" "app.sym")) = true
  /\ open_handles (snd (LoadModule (world_with "app.sym" example_records) ∅
                          "app" "app.sym"))
     = open_handles (world_with "app.sym" example_records)
  /\ disk (world_with "app.sym" example_records) !! "lib.sym" = None
  /\ snd (LoadModule (world_with "app.sym" example_records) ∅
            "lib" "lib.sym")
     = world_with "app.sym" example_records
  /\ fst (LoadMap_loop (new_Module "app") None
            (buffers (symbol_file ["FUNC 1000 10 foo"; "STACK MAC 0"])))
     = false
  /\ fst (fst (LoadModule
                 (world_with "app.sym" ["FUNC 1000 10 foo"; "STACK MAC 0"])
                 ∅ "app" "app.sym")) = false
  /\ open_handles
       (snd (LoadModule
               (world_with "app.sym" ["FUNC 1000 10 foo"; "STACK MAC 0"])
               ∅ "app" "app.sym"))
     = S (open_handles
            (world_with "app.sym" ["FUNC 1000 10 foo"; "STACK MAC 0"])).
Proof.
  pose proof (LoadModule_handles (world_with "app.sym" example_records) ∅
                "app" "app.sym") as H1.
  pose proof (LoadModule_handles (world_with "app.sym" example_records) ∅
                "lib" "lib.sym") as H2.
  pose proof (LoadModule_handles
                (world_with "app.sym" ["FUNC 1000 10 foo"; "STACK MAC 0"]) ∅
                "app" "app.sym") as H3.
  destruct (LoadModule (world_with "app.sym" example_records) ∅
              "app" "app.sym") as [[ok1 modules1] w1] eqn:E1.
  destruct (LoadModule (world_with "app.sym" example_records) ∅
              "lib" "lib.sym") as [[ok2 modules2] w2] eqn:E2.
  destruct (LoadModule
              (world_with "app.sym" ["FUNC 1000 10 foo"; "STACK MAC 0"]) ∅
              "app" "app.sym") as [[ok3 modules3] w3] eqn:E3.
  destruct H1 as (_ & Hok & _). destruct H2 as (_ & _ & Hsame & _).
  destruct H3 as (_ & _ & _ & _ & Hleak & _).
  assert (Hok1 : ok1 = true)
    by (apply (f_equal (fun r => fst (fst r))) in E1;
        vm_compute in E1; congruence).
  assert (Hloop : fst (LoadMap_loop (new_Module "app") None
                         (buffers (symbol_file
                                     ["FUNC 1000 10 foo"; "STACK MAC 0"])))
                  = false)
    by (vm_compute; reflexivity).
  destruct (Hleak (symbol_file ["FUNC 1000 10 foo"; "STACK MAC 0"])
              (lookup_empty _) eq_refl Hloop) as [Hok3 Hopen].
  cbn [fst snd].
  split; [exact Hok1|]. split; [exact (Hok Hok1)|].
  split; [reflexivity|]. split; [apply Hsame; right; reflexivity|].
  split; [exact Hloop|]. split; [exact Hok3|exact Hopen].
Defined.

(** ** A stack record that the map refuses *)

(** X18.  A STACK WIN record that [ParseStackInfo] accepts, but whose
    range the map of its type refuses, is passed over in silence: the
    module stays exactly as it was and the loop goes on with the next
    line. *)
Theorem refused_stack_record_is_passed_over m cur_func buffer tokens rest :
  record_kind buffer = STACK_record ->
  record_tokens buffer = (true, tokens) ->
  tok tokens 0 = "WIN" ->
  0 <= stack_type tokens <= STACK_INFO_LAST - 1 ->
  fst (ContainedRangeMap.StoreRange
         (stack_info_at m (stack_type tokens))
         (stack_rva tokens) (stack_code_size tokens)
         (stack_frame_info tokens)) = false ->
  ParseStackInfo m buffer = (true, m)
  /\ LoadMap_step m cur_func buffer = Some (m, cur_func)
  /\ LoadMap_loop m cur_func (buffer :: rest) = LoadMap_loop m cur_func rest.
Proof.
  intros Hk Htok Hwin Hty Hfail.
  assert (Hparse : ParseStackInfo m buffer = (true, m)).
  { unfold record_tokens in Htok. rewrite Hk in Htok.
    rewrite (ParseStackInfo_accepts _ _ _ Htok Hwin Hty).
    rewrite (ContainedRangeMap_store_failed _ _ _ _ Hfail).
    rewrite stack_info_write_back, set_stack_info_same. reflexivity. }
  assert (Hstep : LoadMap_step m cur_func buffer = Some (m, cur_func)).
  { kind_cases buffer. rewrite Hparse. reflexivity. }
  split; [exact Hparse|]. split; [exact Hstep|].
  cbn [LoadMap_loop]. rewrite Hstep. reflexivity.
Qed.

Lemma refused_stack_record_is_passed_over_witness :
  record_kind (record "STACK WIN 4 4243 2e 9 0 0 0 0 0 y") = STACK_record
  /\ record_tokens (record "STACK WIN 4 4243 2e 9 0 0 0 0 0 y")
     = (true, ["WIN"; "4"; "4243"; "2e"; "9"; "0"; "0"; "0"; "0"; "0"; "y"])
  /\ fst (ContainedRangeMap.StoreRange
            (stack_info_at (loaded "app" stored_records) 4) 0x4243 0x2e
            (StackFrameInfo.make 9 0 0 0 0 0 "y")) = false
  /\ LoadMap_step (loaded "app" stored_records) (Some 0%nat)
       (record "STACK WIN 4 4243 2e 9 0 0 0 0 0 y")
     = Some (loaded "app" stored_records, Some 0%nat)
  /\ fst (fst (LoadModule
                 (world_with "app.sym"
                    (stored_records ++ ["STACK WIN 4 4243 2e 9 0 0 0 0 0 y"]))
                 ∅ "app" "app.sym")) = true.
Proof.
  split; [reflexivity|]. split; [vm_compute; reflexivity|].
  split; [vm_compute; reflexivity|].
  split; [|vm_compute; reflexivity].
  apply (refused_stack_record_is_passed_over
           (loaded "app" stored_records) (Some 0%nat)
           (record "STACK WIN 4 4243 2e 9 0 0 0 0 0 y")
           ["WIN"; "4"; "4243"; "2e"; "9"; "0"; "0"; "0"; "0"; "0"; "y"] []);
    [reflexivity | vm_compute; reflexivity | reflexivity
    | vm_compute; split; discriminate | vm_compute; reflexivity].
Defined.

(** ** Invariants of a load *)

(** The ways a turn of the loop goes on. *)
Lemma LoadMap_step_cases m cur_func buffer m' cur_func' :
  LoadMap_step m cur_func buffer = Some (m', cur_func') ->
  (record_kind buffer = FILE_record /\ m' = ParseFile m buffer
   /\ cur_func' = cur_func)
  \/ (record_kind buffer = STACK_record
      /\ ParseStackInfo m buffer = (true, m') /\ cur_func' = cur_func)
  \/ (record_kind buffer = FUNC_record
      /\ exists f,
          ParseFunction buffer = Some f
          /\ cur_func' = Some (length (objects m))
          /\ (m' = m
              \/ m' = set_functions (set_objects m (objects m ++ [f]))
                        (functions_ m
                         ++ [(Function.address f, Function.size f,
                              length (objects m))])))
  \/ (record_kind buffer = line_record
      /\ exists p line,
          cur_func = Some p /\ ParseLine buffer = Some line
          /\ cur_func' = cur_func
          /\ (m' = set_objects m (alter (store_line line) p (objects m))
              \/ m' = set_dangling_write m)).
Proof.
  unfold LoadMap_step, record_kind.
  destruct (CLib.starts_with "FILE " buffer).
  { intros [= <- <-]. left. repeat split. }
  destruct (CLib.starts_with "STACK " buffer).
  { destruct (ParseStackInfo m buffer) as [[|] m1]; [|discriminate].
    intros [= <- <-]. right. left. repeat split. }
  destruct (CLib.starts_with "FUNC " buffer).
  { destruct (ParseFunction buffer) as [f|]; [|discriminate].
    destruct (RangeMap_store_cases (functions_ m) (Function.address f)
                (Function.size f) (length (objects m))) as [-> | ->];
      intros [= <- <-]; right; right; left; (split; [reflexivity|]);
      exists f; (split; [reflexivity|]); (split; [reflexivity|]).
    - left. apply set_functions_same.
    - right. reflexivity. }
  destruct cur_func as [p|]; [|discriminate].
  destruct (ParseLine buffer) as [line|]; [|discriminate].
  destruct (objects m !! p); intros [= <- <-]; right; right; right;
    (split; [reflexivity|]); exists p, line; repeat split;
    [left|right]; reflexivity.
Qed.

(** A relation that every turn of the loop respects holds between the
    module the loop starts from and the one it ends with. *)
Lemma LoadMap_loop_rel (R : ModuleObj -> ModuleObj -> Prop) :
  (forall m, R m m) ->
  (forall a b c, R a b -> R b c -> R a c) ->
  (forall m cur_func buffer m' cur_func',
      LoadMap_step m cur_func buffer = Some (m', cur_func') -> R m m') ->
  forall lines m cur_func ok m',
    LoadMap_loop m cur_func lines = (ok, m') -> R m m'.
Proof.
  intros Hrefl Htrans Hstep.
  induction lines as [|b lines IH]; intros m c ok m'; cbn [LoadMap_loop].
  - intros [= _ <-]. apply Hrefl.
  - destruct (LoadMap_step m c b) as [[m1 c1]|] eqn:Hs.
    + intros Hl. eapply Htrans; [eapply Hstep, Hs | eapply IH, Hl].
    + intros [= _ <-]. apply Hrefl.
Qed.

Lemma to_int_range v : - 2 ^ 31 <= CLib.to_int v < 2 ^ 31.
Proof.
  unfold CLib.to_int.
  pose proof (Z.mod_pos_bound (v + 2 ^ 31) (2 ^ 32) ltac:(lia)). lia.
Qed.

Lemma ParseStackInfo_files m buffer :
  files_ (snd (ParseStackInfo m buffer)) = files_ m
  /\ name_ (snd (ParseStackInfo m buffer)) = name_ m
  /\ length (stack_info_ (snd (ParseStackInfo m buffer)))
     = length (stack_info_ m).
Proof.
  unfold ParseStackInfo. destruct (Tokenize _ 11) as [[|] toks]; cbn [negb];
    [|repeat split].
  destruct (negb _); [repeat split|].
  destruct (_ || _); [repeat split|].
  destruct (ContainedRangeMap.StoreRange _ _ _ _).
  cbn [snd files_ name_ stack_info_ set_stack_info].
  rewrite length_insert. repeat split.
Qed.

(** What a turn of the loop does to the file table. *)
Lemma LoadMap_step_files m cur_func buffer m' cur_func' :
  LoadMap_step m cur_func buffer = Some (m', cur_func') ->
  files_ m' = files_ m
  \/ exists id name,
      0 <= id < 2 ^ 31 /\ files_ m !! id = None
      /\ files_ m' = <[id := name]> (files_ m).
Proof.
  intros Hstep.
  destruct (LoadMap_step_cases _ _ _ _ _ Hstep)
    as [(_ & -> & _) | [(_ & Hs & _) | [(_ & f & _ & _ & [-> | ->])
       | (_ & p & line & _ & _ & _ & [-> | ->])]]];
    try (left; reflexivity).
  - unfold ParseFile. destruct (Tokenize _ 2) as [[|] toks]; cbn [negb];
      [|left; reflexivity].
    destruct (Z.ltb_spec (CLib.atoi (tok toks 0)) 0) as [Hneg|Hpos];
      [left; reflexivity|].
    destruct (files_ m !! CLib.atoi (tok toks 0)) eqn:Hid; [left; reflexivity|].
    right. exists (CLib.atoi (tok toks 0)), (tok toks 1).
    split; [|split; [exact Hid|reflexivity]].
    pose proof (to_int_range (CLib.strtol (tok toks 0) 10)).
    unfold CLib.atoi in *. lia.
  - left. pose proof (ParseStackInfo_files m buffer) as (Hf & _).
    rewrite Hs in Hf. exact Hf.
Qed.

(** X8.  While a symbol file is loaded, the file table only grows: an
    id that has a name keeps it whatever FILE records follow, up to the
    end of the loop or to the line where it returns; and every id in
    the table of a module loaded from scratch is a non-negative
    [int]. *)
Theorem file_table_only_grows m cur_func lines ok m' :
  LoadMap_loop m cur_func lines = (ok, m') ->
  files_kept m m' /\ (file_ids_valid m -> file_ids_valid m').
Proof.
  intros Hloop. split.
  - revert lines m cur_func ok m' Hloop.
    apply (LoadMap_loop_rel files_kept).
    + intros a id name H. exact H.
    + intros a b c Hab Hbc id name H. apply Hbc, Hab, H.
    + intros a cur b a' cur' Hstep id name H.
      destruct (LoadMap_step_files _ _ _ _ _ Hstep)
        as [-> | (id' & name' & _ & Hnew & ->)]; [exact H|].
      rewrite lookup_insert_ne; [exact H|congruence].
  - revert lines m cur_func ok m' Hloop.
    apply (LoadMap_loop_rel (fun a b => file_ids_valid a -> file_ids_valid b)).
    + intros a H. exact H.
    + intros a b c Hab Hbc H. apply Hbc, Hab, H.
    + intros a cur b a' cur' Hstep Hvalid id name.
      destruct (LoadMap_step_files _ _ _ _ _ Hstep)
        as [-> | (id' & name' & Hid & _ & ->)]; [apply Hvalid|].
      destruct (decide (id' = id)) as [<-|Hne].
      * intros _. exact Hid.
      * rewrite lookup_insert_ne by exact Hne. apply Hvalid.
Qed.

Lemma file_ids_valid_new name : file_ids_valid (new_Module name).
Proof.
  intros id n H. cbn [files_ new_Module] in H.
  rewrite lookup_empty in H. discriminate.
Qed.

Lemma file_table_only_grows_witness :
  LoadMap_loop (loaded "app" ["FILE 3 a.c"]) None
    [record "FILE 3 b.c"; record "FILE -2 c.c"; record "FILE 4 d.c"; "FUNC"]
  = (false, loaded "app" ["FILE 3 a.c"; "FILE 4 d.c"])
  /\ files_ (loaded "app" ["FILE 3 a.c"]) !! 3 = Some "a.c"
  /\ files_ (loaded "app" ["FILE 3 a.c"; "FILE 4 d.c"]) !! 3 = Some "a.c"
  /\ file_ids_valid (loaded "app" ["FILE 3 a.c"; "FILE 4 d.c"]).
Proof.
  assert (Hloop : LoadMap_loop (loaded "app" ["FILE 3 a.c"]) None
                    [record "FILE 3 b.c"; record "FILE -2 c.c";
                     record "FILE 4 d.c"; "FUNC"]
                  = (false, loaded "app" ["FILE 3 a.c"; "FILE 4 d.c"]))
    by (vm_compute; reflexivity).
  destruct (file_table_only_grows _ _ _ _ _ Hloop) as [Hkept Hvalid].
  split; [exact Hloop|]. split; [reflexivity|].
  split; [apply Hkept; reflexivity|].
  apply Hvalid.
  assert (Hfirst : LoadMap_loop (new_Module "app") None
                     (buffers (symbol_file ["FILE 3 a.c"]))
                   = (true, loaded "app" ["FILE 3 a.c"]))
    by (vm_compute; reflexivity).
  apply (proj2 (file_table_only_grows _ _ _ _ _ Hfirst)).
  apply file_ids_valid_new.
Defined.

Lemma In_alter {A} (g : A -> A) i (l : list A) y :
  In y (alter g i l) -> In y l \/ exists x, In x l /\ y = g x.
Proof.
  revert i. induction l as [|a l IH]; intros [|i]; cbn; try tauto.
  - intros [<-|H]; [right; exists a; auto | left; auto].
  - intros [<-|H]; [left; auto|].
    destruct (IH _ H) as [H'|(x & Hx & ->)];
      [left; auto | right; exists x; auto].
Qed.

Lemma ParseLine_positive buffer line :
  ParseLine buffer = Some line -> 0 < Line.line line < 2 ^ 31.
Proof.
  unfold ParseLine. destruct (Tokenize buffer 4) as [[|] toks]; cbn [negb];
    [|discriminate].
  destruct (Z.leb_spec (CLib.atoi (tok toks 2)) 0) as [|Hpos]; [discriminate|].
  intros [= <-]. cbn [Line.line].
  pose proof (to_int_range (CLib.strtol (tok toks 2) 10)).
  unfold CLib.atoi in *. lia.
Qed.

Lemma RangeMap_retrieve_In {A} (m : RangeMap.t A) address entry :
  RangeMap.RetrieveRange m address = Some entry ->
  exists base size,
    In (base, size, entry) m /\ RangeMap.covers base size address = true.
Proof.
  unfold RangeMap.RetrieveRange.
  destruct (List.find _ m) as [[[b s] e]|] eqn:Hfind; [|discriminate].
  intros [= <-]. apply find_some in Hfind as [Hin Hcov].
  exists b, s. split; assumption.
Qed.

Lemma lines_positive_step m cur_func buffer m' cur_func' :
  LoadMap_step m cur_func buffer = Some (m', cur_func') ->
  lines_positive m -> lines_positive m'.
Proof.
  intros Hstep Hpos.
  destruct (LoadMap_step_cases _ _ _ _ _ Hstep)
    as [(_ & -> & _) | [(_ & Hs & _) | [(_ & f & Hf & _ & [-> | ->])
       | (_ & p & line & _ & Hl & _ & [-> | ->])]]];
    intros func base size l.
  - destruct (ParseFile_index m buffer) as (_ & -> & _). apply Hpos.
  - pose proof (ParseStackInfo_index m buffer) as [_ Ho].
    rewrite Hs in Ho. cbn [snd] in Ho. rewrite Ho. apply Hpos.
  - apply Hpos.
  - cbn [objects set_functions set_objects].
    intros [Hin|[<-|[]]]%in_app_or; [apply Hpos, Hin|].
    rewrite (ParseFunction_lines _ _ Hf). intros [].
  - cbn [objects set_objects].
    intros [Hin|(g & Hg & ->)]%In_alter; [apply Hpos, Hin|].
    unfold store_line. cbn [Function.lines Function.set_lines].
    destruct (RangeMap_store_shape (Function.lines g) (Line.address line)
                (Line.size line) line) as [-> | ->].
    + apply Hpos, Hg.
    + intros [Hin|[[= _ _ <-]|[]]]%in_app_or;
        [exact (Hpos _ _ _ _ Hg Hin) | exact (ParseLine_positive _ _ Hl)].
  - apply Hpos.
Qed.

Lemma lines_positive_new name : lines_positive (new_Module name).
Proof. intros func base size l []. Qed.

Lemma lines_positive_lookup m address frame frame_info :
  lines_positive m ->
  StackFrame.source_line (fst (LookupAddress m address frame frame_info))
  = StackFrame.source_line frame
  \/ 0 < StackFrame.source_line
           (fst (LookupAddress m address frame frame_info)) < 2 ^ 31.
Proof.
  intros Hpos. unfold LookupAddress.
  destruct (RangeMap.RetrieveRange (functions_ m) address) as [p|];
    [|left; reflexivity].
  destruct (objects m !! p) as [func|] eqn:Hfunc; [|left; reflexivity].
  destruct (RangeMap.RetrieveRange (Function.lines func) address)
    as [line|] eqn:Hline; [|left; reflexivity].
  right. cbn [fst StackFrame.source_line StackFrame.set_source_line].
  apply RangeMap_retrieve_In in Hline as (b & s & Hin & _).
  apply (Hpos func b s line); [|exact Hin].
  apply list_elem_of_In, list_elem_of_lookup. exists p. exact Hfunc.
Qed.

(** X9.  A module that [LoadModule] has registered never resolves an
    address to a line number that is zero or negative: the line number
    [FillSourceLineInfo] leaves in a frame of this module is the one
    the frame came with, or a positive [int]. *)
Theorem resolved_line_numbers_are_positive
    w modules name path modules' w' frame frame_info :
  LoadModule w modules name path = (true, modules', w') ->
  StackFrame.module_name frame = name ->
  StackFrame.source_line (fst (FillSourceLineInfo modules' frame frame_info))
  = StackFrame.source_line frame
  \/ 0 < StackFrame.source_line
           (fst (FillSourceLineInfo modules' frame frame_info)) < 2 ^ 31.
Proof.
  unfold LoadModule.
  destruct (modules !! name) as [old|]; [discriminate|].
  unfold LoadMap, fopen.
  destruct (disk w !! path) as [content|]; [|discriminate].
  destruct (LoadMap_loop (new_Module name) None (buffers content))
    as [[|] module] eqn:Hloop; [|discriminate].
  intros [= <- _] Hname. unfold FillSourceLineInfo.
  rewrite Hname, lookup_insert_eq.
  apply lines_positive_lookup.
  refine (LoadMap_loop_rel (fun a b => lines_positive a -> lines_positive b)
            _ _ _ _ _ _ _ _ Hloop (lines_positive_new name)).
  - auto.
  - auto.
  - intros a cur b a' cur' Hstep. exact (lines_positive_step _ _ _ _ _ Hstep).
Qed.

Lemma resolved_line_numbers_are_positive_witness :
  LoadModule (world_with "app.sym" example_records) ∅ "app" "app.sym"
  = (true, {[ "app" := loaded "app" example_records ]},
     world_with "app.sym" example_records)
  /\ StackFrame.source_line
       (fst (FillSourceLineInfo {[ "app" := loaded "app" example_records ]}
               (StackFrame.mk "app" 0x400000 0x401000 "" "" (-1)) None))
     = 42
  /\ (StackFrame.source_line
        (fst (FillSourceLineInfo {[ "app" := loaded "app" example_records ]}
                (StackFrame.mk "app" 0x400000 0x401000 "" "" (-1)) None))
      = -1
      \/ 0 < StackFrame.source_line
               (fst (FillSourceLineInfo
                       {[ "app" := loaded "app" example_records ]}
                       (StackFrame.mk "app" 0x400000 0x401000 "" "" (-1))
                       None)) < 2 ^ 31).
Proof.
  assert (Hload : LoadModule (world_with "app.sym" example_records) ∅
                    "app" "app.sym"
                  = (true, {[ "app" := loaded "app" example_records ]},
                     world_with "app.sym" example_records))
    by (vm_compute; reflexivity).
  split; [exact Hload|]. split; [vm_compute; reflexivity|].
  apply (resolved_line_numbers_are_positive _ _ _ _ _ _
           (StackFrame.mk "app" 0x400000 0x401000 "" "" (-1)) None Hload).
  reflexivity.
Defined.

(** ** The array of stack-info maps *)

Lemma ParseStackInfo_write m buffer m' :
  ParseStackInfo m buffer = (true, m') ->
  exists type stored,
    0 <= type < STACK_INFO_LAST
    /\ m' = set_stack_info m (<[Z.to_nat type := stored]> (stack_info_ m)).
Proof.
  unfold ParseStackInfo. destruct (Tokenize _ 11) as [[|] toks]; cbn [negb];
    [|discriminate].
  destruct (negb _); [discriminate|].
  fold (stack_type toks).
  destruct (Z.ltb_spec (stack_type toks) 0) as [|Hlo]; [discriminate|].
  destruct (Z.gtb_spec (stack_type toks) (STACK_INFO_LAST - 1)) as [|Hhi];
    [discriminate|].
  cbn [orb].
  destruct (ContainedRangeMap.StoreRange _ _ _ _) as [ok stored].
  intros [= <-]. exists (stack_type toks), stored.
  split; [lia|reflexivity].
Qed.

(** X10.  [ParseStackInfo] writes inside the array [stack_info_] and
    nowhere else: a STACK record it accepts replaces one of the five
    maps, the one of its type, and leaves the file table, the function
    index and the functions as they were; and the array of a module
    that is being loaded has five maps at every line. *)
Theorem stack_info_written_in_bounds :
  (forall m buffer m',
      ParseStackInfo m buffer = (true, m') ->
      exists type stored,
        0 <= type < STACK_INFO_LAST
        /\ (Z.to_nat type < Z.to_nat STACK_INFO_LAST)%nat
        /\ length (stack_info_ m') = length (stack_info_ m)
        /\ stack_info_ m' = <[Z.to_nat type := stored]> (stack_info_ m)
        /\ files_ m' = files_ m
        /\ functions_ m' = functions_ m
        /\ objects m' = objects m)
  /\ (forall name lines ok m,
        LoadMap_loop (new_Module name) None lines = (ok, m) ->
        length (stack_info_ m) = Z.to_nat STACK_INFO_LAST /\ name_ m = name).
Proof.
  split.
  - intros m buffer m' Hparse.
    destruct (ParseStackInfo_write _ _ _ Hparse) as (type & stored & Hty & ->).
    exists type, stored. cbn [stack_info_ files_ functions_ objects set_stack_info].
    rewrite length_insert. unfold STACK_INFO_LAST in *. repeat split; lia.
  - intros name lines ok m Hloop.
    refine (LoadMap_loop_rel
              (fun a b => length (stack_info_ a) = Z.to_nat STACK_INFO_LAST
                          /\ name_ a = name ->
                          length (stack_info_ b) = Z.to_nat STACK_INFO_LAST
                          /\ name_ b = name)
              _ _ _ _ _ _ _ _ Hloop (conj eq_refl eq_refl)).
    + auto.
    + auto.
    + intros a cur b a' cur' Hstep [Hlen Hname].
      destruct (LoadMap_step_cases _ _ _ _ _ Hstep)
        as [(_ & -> & _) | [(_ & Hs & _) | [(_ & f & _ & _ & [-> | ->])
           | (_ & p & line & _ & _ & _ & [-> | ->])]]];
        try (split; assumption).
      * destruct (ParseFile_index a b) as (_ & _ & ->).
        split; [exact Hlen|].
        unfold ParseFile. destruct (Tokenize _ 2) as [[|] toks]; cbn [negb];
          [|exact Hname].
        destruct (_ <? 0); [exact Hname|].
        destruct (files_ a !! _); exact Hname.
      * pose proof (ParseStackInfo_files a b) as (_ & Hn & Hl).
        rewrite Hs in Hn, Hl. cbn [snd] in Hn, Hl. rewrite Hn, Hl.
        split; assumption.
Qed.

Lemma stack_info_written_in_bounds_witness :
  ParseStackInfo (new_Module "app")
    (record "STACK WIN 2 1000 10 0 0 0 0 0 0 tss")
  = (true, loaded "app" ["STACK WIN 2 1000 10 0 0 0 0 0 0 tss"])
  /\ length (stack_info_ (loaded "app" ["STACK WIN 2 1000 10 0 0 0 0 0 0 tss"]))
     = 5%nat
  /\ fst (ParseStackInfo (new_Module "app")
            (record "STACK WIN 5 1000 10 0 0 0 0 0 0 none")) = false.
Proof.
  assert (Hparse : ParseStackInfo (new_Module "app")
                     (record "STACK WIN 2 1000 10 0 0 0 0 0 0 tss")
                   = (true, loaded "app" ["STACK WIN 2 1000 10 0 0 0 0 0 0 tss"]))
    by (vm_compute; reflexivity).
  destruct (proj1 stack_info_written_in_bounds _ _ _ Hparse)
    as (type & stored & _ & _ & Hlen & _).
  split; [exact Hparse|].
  split; [rewrite Hlen; reflexivity|].
  vm_compute. reflexivity.
Defined.

(** ** What a record changes in the lookups *)

(** The two halves of a lookup do not depend on each other. *)
Lemma LookupAddress_split m address frame frame_info :
  LookupAddress m address frame frame_info
  = (fst (LookupAddress m address frame None),
     match frame_info with
     | Some info => Some (probe_stack_info m address info)
     | None => None
     end).
Proof.
  unfold LookupAddress.
  destruct (RangeMap.RetrieveRange (functions_ m) address) as [p|];
    [|reflexivity].
  destruct (objects m !! p) as [func|]; [|reflexivity].
  destruct (RangeMap.RetrieveRange (Function.lines func) address);
    reflexivity.
Qed.

(** The frame half depends on the index, the objects it points to and
    the file table. *)
Lemma LookupAddress_frame_ext m m' address frame frame_info :
  functions_ m' = functions_ m ->
  files_ m' = files_ m ->
  (forall p, RangeMap.RetrieveRange (functions_ m) address = Some p ->
             objects m' !! p = objects m !! p) ->
  fst (LookupAddress m' address frame frame_info)
  = fst (LookupAddress m address frame frame_info).
Proof.
  intros Hf Hfiles Hobj.
  rewrite (LookupAddress_split m'), (LookupAddress_split m). cbn [fst].
  unfold LookupAddress. rewrite Hf, Hfiles.
  destruct (RangeMap.RetrieveRange (functions_ m) address) as [p|] eqn:Hp;
    [|reflexivity].
  rewrite (Hobj p eq_refl). reflexivity.
Qed.

(** The frame-information half depends on the three maps it probes. *)
Lemma LookupAddress_info_ext m m' address frame frame_info :
  (forall type, In type probe_order ->
                stack_info_at m' type = stack_info_at m type) ->
  snd (LookupAddress m' address frame frame_info)
  = snd (LookupAddress m address frame frame_info).
Proof.
  intros Hmaps.
  rewrite (LookupAddress_split m'), (LookupAddress_split m). cbn [snd].
  destruct frame_info as [info|]; [|reflexivity]. f_equal.
  unfold probe_stack_info.
  rewrite !Hmaps by (unfold probe_order; cbn; tauto). reflexivity.
Qed.

Lemma pair_eq {A B} (x y : A * B) : fst x = fst y -> snd x = snd y -> x = y.
Proof. destruct x, y. cbn. congruence. Qed.

(** X11.  A FILE, FUNC or line record never changes the frame
    information that a lookup yields, and a STACK record never changes
    the function, file and line that a lookup yields. *)
Theorem records_change_one_half_of_a_lookup
    m cur_func buffer m' cur_func' address frame frame_info :
  LoadMap_step m cur_func buffer = Some (m', cur_func') ->
  (record_kind buffer <> STACK_record ->
   snd (LookupAddress m' address frame frame_info)
   = snd (LookupAddress m address frame frame_info))
  /\ (record_kind buffer = STACK_record ->
      fst (LookupAddress m' address frame frame_info)
      = fst (LookupAddress m address frame frame_info)).
Proof.
  intros Hstep.
  destruct (LoadMap_step_cases _ _ _ _ _ Hstep)
    as [(Hk & -> & _) | [(Hk & Hs & _) | [(Hk & f & _ & _ & [-> | ->])
       | (Hk & p & line & _ & _ & _ & [-> | ->])]]];
    (split; [intros Hne | intros Heq]); try congruence;
    try (apply LookupAddress_info_ext; reflexivity).
  - apply LookupAddress_info_ext. intros type _. unfold stack_info_at.
    destruct (ParseFile_index m buffer) as (_ & _ & ->). reflexivity.
  - pose proof (ParseStackInfo_index m buffer) as [Hf Ho].
    pose proof (ParseStackInfo_files m buffer) as (Hfiles & _).
    rewrite Hs in *. cbn [snd] in *.
    apply LookupAddress_frame_ext; [assumption|assumption|].
    intros q _. rewrite Ho. reflexivity.
Qed.

Lemma records_change_one_half_of_a_lookup_witness :
  record_kind (record "FUNC 1000 10 foo") <> STACK_record
  /\ LoadMap_step (loaded "app" ["STACK WIN 0 1000 10 0 0 0 0 0 0 fpo"]) None
       (record "FUNC 1000 10 foo")
     = Some (loaded "app" ["STACK WIN 0 1000 10 0 0 0 0 0 0 fpo";
                           "FUNC 1000 10 foo"], Some 0%nat)
  /\ snd (LookupAddress
            (loaded "app" ["STACK WIN 0 1000 10 0 0 0 0 0 0 fpo";
                           "FUNC 1000 10 foo"])
            0x1000 (empty_frame "app" 0 0x1000) (Some StackFrameInfo.default))
     = snd (LookupAddress
              (loaded "app" ["STACK WIN 0 1000 10 0 0 0 0 0 0 fpo"])
              0x1000 (empty_frame "app" 0 0x1000)
              (Some StackFrameInfo.default)).
Proof.
  split; [discriminate|].
  assert (Hstep : LoadMap_step
                    (loaded "app" ["STACK WIN 0 1000 10 0 0 0 0 0 0 fpo"]) None
                    (record "FUNC 1000 10 foo")
                  = Some (loaded "app" ["STACK WIN 0 1000 10 0 0 0 0 0 0 fpo";
                                        "FUNC 1000 10 foo"], Some 0%nat))
    by (vm_compute; reflexivity).
  split; [exact Hstep|].
  apply (proj1 (records_change_one_half_of_a_lookup _ _ _ _ _
                  0x1000 (empty_frame "app" 0 0x1000)
                  (Some StackFrameInfo.default) Hstep)).
  discriminate.
Defined.

(** X12.  A STACK WIN record of type 1 or 2 (the trap and TSS kinds of
    frame information) is accepted and stored, and then never read: it
    changes the result of no lookup. *)
Theorem trap_and_tss_records_are_never_read
    m cur_func buffer tokens address frame frame_info :
  record_kind buffer = STACK_record ->
  record_tokens buffer = (true, tokens) ->
  tok tokens 0 = "WIN" ->
  stack_type tokens = STACK_INFO_TRAP \/ stack_type tokens = STACK_INFO_TSS ->
  exists m',
    LoadMap_step m cur_func buffer = Some (m', cur_func)
    /\ LookupAddress m' address frame frame_info
       = LookupAddress m address frame frame_info.
Proof.
  intros Hk Htok Hwin Hty.
  assert (Hrange : 0 <= stack_type tokens <= STACK_INFO_LAST - 1)
    by (unfold STACK_INFO_TRAP, STACK_INFO_TSS, STACK_INFO_LAST in *; lia).
  assert (Hparse := ParseStackInfo_accepts m buffer tokens).
  assert (Hstep : exists m', LoadMap_step m cur_func buffer = Some (m', cur_func)
                             /\ ParseStackInfo m buffer = (true, m')).
  { kind_cases buffer. rewrite (Hparse Htok Hwin Hrange).
    eexists. split; reflexivity. }
  destruct Hstep as (m' & Hstep & Hm'). exists m'. split; [exact Hstep|].
  apply pair_eq.
  - apply (proj2 (records_change_one_half_of_a_lookup _ _ _ _ _
                    address frame frame_info Hstep)), Hk.
  - apply LookupAddress_info_ext. intros type Hin.
    assert (Htok' : Tokenize (CLib.advance 6 buffer) 11 = (true, tokens))
      by (unfold record_tokens in Htok; rewrite Hk in Htok; exact Htok).
    rewrite (Hparse Htok' Hwin Hrange) in Hm'. injection Hm' as <-.
    unfold stack_info_at. cbn [stack_info_ set_stack_info].
    rewrite list_lookup_insert_ne; [reflexivity|].
    unfold probe_order, STACK_INFO_FRAME_DATA, STACK_INFO_FPO,
      STACK_INFO_STANDARD, STACK_INFO_TRAP, STACK_INFO_TSS in *.
    cbn in Hin. lia.
Qed.

Lemma trap_and_tss_records_are_never_read_witness :
  record_kind (record "STACK WIN 1 1000 10 0 0 0 0 0 0 trap") = STACK_record
  /\ record_tokens (record "STACK WIN 1 1000 10 0 0 0 0 0 0 trap")
     = (true, ["WIN"; "1"; "1000"; "10"; "0"; "0"; "0"; "0"; "0"; "0"; "trap"])
  /\ exists m',
      LoadMap_step (new_Module "app") None
        (record "STACK WIN 1 1000 10 0 0 0 0 0 0 trap") = Some (m', None)
      /\ m' <> new_Module "app"
      /\ LookupAddress m' 0x1000 (empty_frame "app" 0 0x1000)
           (Some StackFrameInfo.default)
         = (empty_frame "app" 0 0x1000, Some StackFrameInfo.default).
Proof.
  split; [reflexivity|]. split; [vm_compute; reflexivity|].
  destruct (trap_and_tss_records_are_never_read (new_Module "app") None
              (record "STACK WIN 1 1000 10 0 0 0 0 0 0 trap")
              ["WIN"; "1"; "1000"; "10"; "0"; "0"; "0"; "0"; "0"; "0"; "trap"]
              0x1000 (empty_frame "app" 0 0x1000) (Some StackFrameInfo.default))
    as (m' & Hstep & Hlook);
    [reflexivity | vm_compute; reflexivity | reflexivity
    | left; vm_compute; reflexivity |].
  exists m'. split; [exact Hstep|]. split; [|rewrite Hlook; reflexivity].
  intros ->. vm_compute in Hstep. discriminate.
Defined.

(** ** Functions: the first stored wins, and what is stored is found *)

Lemma indexed_object_kept m extra address p :
  index_valid m ->
  RangeMap.RetrieveRange (functions_ m) address = Some p ->
  (objects m ++ extra) !! p = objects m !! p.
Proof.
  intros Hvalid Hp. apply RangeMap_retrieve_In in Hp as (b & s & Hin & _).
  apply lookup_app_l. exact (Hvalid _ _ _ Hin).
Qed.

(** X13.  A FUNC record that overlaps a stored function leaves the
    module as it was, function index, functions, file table and stack
    information, so that it changes the result of no lookup, and the
    loop goes on; the [Function] it parsed is destroyed, which leaves
    the current function pointing to no object, in the index or out of
    it.  A line record read next is stored through this dangling
    pointer. *)
Theorem refused_function_leaves_cur_func_dangling
    m cur_func buffer f base size q :
  index_valid m ->
  record_kind buffer = FUNC_record ->
  ParseFunction buffer = Some f ->
  In (base, size, q) (functions_ m) ->
  RangeMap.overlaps base size (Function.address f) (Function.size f) = true ->
  LoadMap_step m cur_func buffer = Some (m, Some (length (objects m)))
  /\ objects m !! length (objects m) = None
  /\ (forall b s, ~ In (b, s, length (objects m)) (functions_ m))
  /\ (forall line_buffer line,
        record_kind line_buffer = line_record ->
        ParseLine line_buffer = Some line ->
        LoadMap_step m (Some (length (objects m))) line_buffer
        = Some (set_dangling_write m, Some (length (objects m)))).
Proof.
  intros Hvalid Hk Hf Hin Hov.
  assert (Hgone : objects m !! length (objects m) = None)
    by (apply lookup_ge_None; lia).
  split.
  { rewrite (FUNC_record_step _ _ _ _ Hk Hf).
    rewrite (RangeMap_store_overlapping _ _ _ _ _ _ _ Hin Hov).
    cbn [fst snd kept_alive]. rewrite set_functions_same. reflexivity. }
  split; [exact Hgone|]. split.
  - intros b s Hp. apply Hvalid in Hp. lia.
  - intros line_buffer line Hkl Hl.
    apply (line_record_dangling _ _ _ _ Hkl Hl Hgone).
Qed.

Lemma refused_function_leaves_cur_func_dangling_witness :
  index_valid (loaded "app" ["FUNC 1000 10 foo"; "1000 10 42 0"])
  /\ In (0x1000, 0x10, 0%nat)
       (functions_ (loaded "app" ["FUNC 1000 10 foo"; "1000 10 42 0"]))
  /\ LoadMap_step (loaded "app" ["FUNC 1000 10 foo"; "1000 10 42 0"])
       (Some 0%nat) (record "FUNC 1008 10 bar")
     = Some (loaded "app" ["FUNC 1000 10 foo"; "1000 10 42 0"], Some 1%nat)
  /\ objects (loaded "app" ["FUNC 1000 10 foo"; "1000 10 42 0"]) !! 1%nat
     = None
  /\ LoadMap_step (loaded "app" ["FUNC 1000 10 foo"; "1000 10 42 0"])
       (Some 1%nat) (record "1008 4 7 0")
     = Some (set_dangling_write
               (loaded "app" ["FUNC 1000 10 foo"; "1000 10 42 0"]),
             Some 1%nat).
Proof.
  assert (Hvalid : index_valid
                     (loaded "app" ["FUNC 1000 10 foo"; "1000 10 42 0"])).
  { apply (index_valid_loaded
             (buffers (symbol_file ["FUNC 1000 10 foo"; "1000 10 42 0"]))
             (new_Module "app") None _ (Some 0%nat) (index_valid_new _)).
    vm_compute. reflexivity. }
  assert (Hin : In (0x1000, 0x10, 0%nat)
                   (functions_
                      (loaded "app" ["FUNC 1000 10 foo"; "1000 10 42 0"])))
    by (left; reflexivity).
  destruct (refused_function_leaves_cur_func_dangling
              (loaded "app" ["FUNC 1000 10 foo"; "1000 10 42 0"]) (Some 0%nat)
              (record "FUNC 1008 10 bar")
              (Function.mk "bar" 0x1008 0x10 RangeMap.empty)
              0x1000 0x10 0%nat Hvalid eq_refl eq_refl Hin eq_refl)
    as (Hstep & Hgone & _ & Hline).
  split; [exact Hvalid|]. split; [exact Hin|].
  split; [exact Hstep|]. split; [exact Hgone|].
  apply (Hline (record "1008 4 7 0") (Line.mk 0x1008 4 0 7)); reflexivity.
Defined.

Lemma find_app {A} (test : A -> bool) (l1 l2 : list A) :
  List.find test (l1 ++ l2)
  = match List.find test l1 with
    | Some x => Some x
    | None => List.find test l2
    end.
Proof.
  induction l1 as [|a l1 IH]; [reflexivity|]. cbn.
  destruct (test a); [reflexivity|exact IH].
Qed.

Lemma covers_both_overlap b1 s1 b2 s2 address :
  RangeMap.covers b1 s1 address = true ->
  RangeMap.covers b2 s2 address = true ->
  RangeMap.overlaps b1 s1 b2 s2 = true.
Proof.
  unfold RangeMap.covers, RangeMap.overlaps.
  intros [H1 H2]%andb_prop [H3 H4]%andb_prop.
  apply Z.ltb_lt. apply Z.leb_le in H1, H3. apply Z.ltb_lt in H2, H4. lia.
Qed.

(** Storing a range that overlaps none, and looking an address up in
    the map that results. *)
Lemma RangeMap_store_fresh {A} (m : RangeMap.t A) base size entry :
  (forall b s q, In (b, s, q) m -> RangeMap.overlaps b s base size = false) ->
  RangeMap.StoreRange m base size entry = (true, m ++ [(base, size, entry)])
  /\ forall address,
      RangeMap.RetrieveRange (m ++ [(base, size, entry)]) address
      = if RangeMap.covers base size address then Some entry
        else RangeMap.RetrieveRange m address.
Proof.
  intros Hfree. split.
  - unfold RangeMap.StoreRange.
    destruct (existsb _ m) eqn:Hex; [|reflexivity].
    apply existsb_exists in Hex as ([[b s] q] & Hin & Hov).
    rewrite (Hfree _ _ _ Hin) in Hov. discriminate.
  - intros address. unfold RangeMap.RetrieveRange. rewrite find_app.
    destruct (RangeMap.covers base size address) eqn:Hnew.
    + destruct (List.find _ m) as [[[b s] q]|] eqn:Hfind.
      * apply find_some in Hfind as [Hin Hcov].
        specialize (Hfree _ _ _ Hin).
        rewrite (covers_both_overlap _ _ _ _ _ Hcov Hnew) in Hfree.
        discriminate.
      * cbn. rewrite Hnew. reflexivity.
    + destruct (List.find _ m) as [[[b s] q]|]; [reflexivity|].
      cbn. rewrite Hnew. reflexivity.
Qed.

(** X14.  A FUNC record that overlaps no stored function is found
    again: once the loop has read it, every address of its range
    resolves to its name, with no line yet, and every other address
    resolves as before. *)
Theorem stored_function_is_found m cur_func buffer f :
  index_valid m ->
  record_kind buffer = FUNC_record ->
  ParseFunction buffer = Some f ->
  (forall b s q,
      In (b, s, q) (functions_ m) ->
      RangeMap.overlaps b s (Function.address f) (Function.size f) = false) ->
  exists m',
    LoadMap_step m cur_func buffer = Some (m', Some (length (objects m)))
    /\ forall address frame frame_info,
        LookupAddress m' address frame frame_info
        = if RangeMap.covers (Function.address f) (Function.size f) address
          then (StackFrame.set_function_name frame (Function.name f),
                snd (LookupAddress m address frame frame_info))
          else LookupAddress m address frame frame_info.
Proof.
  intros Hvalid Hk Hf Hfree.
  destruct (RangeMap_store_fresh (functions_ m) (Function.address f)
              (Function.size f) (length (objects m)) Hfree) as [Hstore Hret].
  eexists. split.
  { rewrite (FUNC_record_step _ _ _ _ Hk Hf), Hstore.
    cbn [fst snd kept_alive]. reflexivity. }
  intros address frame frame_info.
  rewrite (LookupAddress_split m address frame frame_info).
  unfold LookupAddress at 1.
  cbn [functions_ objects files_ set_functions set_objects snd].
  rewrite Hret.
  destruct (RangeMap.covers (Function.address f) (Function.size f) address).
  - rewrite (list_lookup_middle (objects m) [] f _ eq_refl).
    rewrite (ParseFunction_lines _ _ Hf). reflexivity.
  - unfold LookupAddress.
    destruct (RangeMap.RetrieveRange (functions_ m) address) as [q|] eqn:Hq;
      [|reflexivity].
    rewrite (indexed_object_kept _ _ _ _ Hvalid Hq).
    destruct (objects m !! q) as [g|]; [|reflexivity].
    destruct (RangeMap.RetrieveRange (Function.lines g) address);
      reflexivity.
Qed.

Lemma stored_function_is_found_witness :
  index_valid (loaded "app" ["FUNC 1000 10 foo"])
  /\ exists m',
      LoadMap_step (loaded "app" ["FUNC 1000 10 foo"]) (Some 0%nat)
        (record "FUNC 1010 8 bar") = Some (m', Some 1%nat)
      /\ LookupAddress m' 0x1017 (empty_frame "app" 0 0x1017) None
         = (StackFrame.mk "app" 0 0x1017 "bar" "" 0, None)
      /\ LookupAddress m' 0x1018 (empty_frame "app" 0 0x1018) None
         = (empty_frame "app" 0 0x1018, None)
      /\ LookupAddress m' 0x100f (empty_frame "app" 0 0x100f) None
         = (StackFrame.mk "app" 0 0x100f "foo" "" 0, None).
Proof.
  assert (Hvalid : index_valid (loaded "app" ["FUNC 1000 10 foo"])).
  { apply (index_valid_loaded (buffers (symbol_file ["FUNC 1000 10 foo"]))
             (new_Module "app") None _ (Some 0%nat) (index_valid_new _)).
    vm_compute. reflexivity. }
  split; [exact Hvalid|].
  destruct (stored_function_is_found (loaded "app" ["FUNC 1000 10 foo"])
              (Some 0%nat) (record "FUNC 1010 8 bar")
              (Function.mk "bar" 0x1010 8 RangeMap.empty)
              Hvalid eq_refl eq_refl) as (m' & Hstep & Hlook).
  { intros b s q [[= <- <- <-]|[]]. reflexivity. }
  exists m'. split; [exact Hstep|].
  rewrite !Hlook. repeat split; vm_compute; reflexivity.
Defined.

(** X15.  A line record that overlaps no line of the current function
    is found again: once the loop has read it, an address that the
    function index resolves to the current function and that the
    record covers gets the function name, the line number of the
    record, and the file name of its file id when the file table has
    one. *)
Theorem stored_line_is_found
    m p func buffer line address frame frame_info :
  record_kind buffer = line_record ->
  ParseLine buffer = Some line ->
  objects m !! p = Some func ->
  (forall b s x,
      In (b, s, x) (Function.lines func) ->
      RangeMap.overlaps b s (Line.address line) (Line.size line) = false) ->
  RangeMap.RetrieveRange (functions_ m) address = Some p ->
  RangeMap.covers (Line.address line) (Line.size line) address = true ->
  exists m',
    LoadMap_step m (Some p) buffer = Some (m', Some p)
    /\ fst (LookupAddress m' address frame frame_info)
       = StackFrame.set_source_line
           (match files_ m !! Line.source_file_id line with
            | Some file =>
                StackFrame.set_source_file_name
                  (StackFrame.set_function_name frame (Function.name func))
                  file
            | None => StackFrame.set_function_name frame (Function.name func)
            end)
           (Line.line line).
Proof.
  intros Hk Hl Hfunc Hfree Hp Hcov.
  destruct (RangeMap_store_fresh (Function.lines func) (Line.address line)
              (Line.size line) line Hfree) as [Hstore Hret].
  eexists. split; [apply (line_record_step _ _ _ _ _ Hk Hl Hfunc)|].
  unfold LookupAddress. cbn [functions_ objects files_ set_objects].
  rewrite Hp, list_lookup_alter_eq, Hfunc. cbn [fmap option_fmap option_map].
  unfold store_line. rewrite Hstore.
  cbn [snd Function.lines Function.set_lines Function.name].
  rewrite Hret, Hcov.
  destruct (files_ m !! Line.source_file_id line); reflexivity.
Qed.

Lemma stored_line_is_found_witness :
  record_kind (record "1004 4 17 3") = line_record
  /\ ParseLine (record "1004 4 17 3") = Some (Line.mk 0x1004 4 3 17)
  /\ exists m',
      LoadMap_step (loaded "app" ["FILE 3 b.c"; "FUNC 1000 10 foo";
                                  "1000 4 16 3"])
        (Some 0%nat) (record "1004 4 17 3") = Some (m', Some 0%nat)
      /\ fst (LookupAddress m' 0x1006 (empty_frame "app" 0 0x1006) None)
         = StackFrame.mk "app" 0 0x1006 "foo" "b.c" 17.
Proof.
  split; [reflexivity|]. split; [reflexivity|].
  destruct (stored_line_is_found
              (loaded "app" ["FILE 3 b.c"; "FUNC 1000 10 foo"; "1000 4 16 3"])
              0%nat
              (Function.mk "foo" 0x1000 0x10
                 [(0x1000, 4, Line.mk 0x1000 4 3 16)])
              (record "1004 4 17 3") (Line.mk 0x1004 4 3 17)
              0x1006 (empty_frame "app" 0 0x1006) None
              eq_refl eq_refl eq_refl) as (m' & Hstep & Hlook);
    [intros b s x [[= <- <- <-]|[]]; reflexivity | reflexivity | reflexivity |].
  exists m'. split; [exact Hstep|]. rewrite Hlook. reflexivity.
Defined.

(** ** Names with spaces *)

Lemma Tokenize_spaced words last eol max_tokens :
  2 <= max_tokens < 2 ^ 32 ->
  Z.of_nat (length words) = max_tokens - 1 ->
  Forall (fun w => TokenRule.word w = true) words ->
  last <> EmptyString ->
  TokenRule.no_newline last = true ->
  TokenRule.all_newline eol = true ->
  Tokenize (TokenRule.spaced words (String.append last eol)) max_tokens
  = (true, words ++ [last]).
Proof.
  intros HN Hlen Hwords Hlast Hnl Heol.
  rewrite Tokenize_tokens;
    [| exact HN
     | apply record_line_spaced;
       [exact Hwords | apply record_line_app; assumption] ].
  replace (Z.to_nat max_tokens) with (S (length words)) by lia.
  rewrite (tokens_spaced _ _ Hwords).
  cbn [TokenRule.tokens TokenRule.tokens_with]. unfold TokenRule.trimmed.
  rewrite (trim_newline_app _ _ Hnl Heol).
  destruct last as [|c r]; [contradiction|].
  rewrite length_app. cbn [length].
  rewrite (proj2 (Z.eqb_eq _ _)) by lia. reflexivity.
Qed.

(** X16.  [ParseFunction] takes the whole rest of the line for the
    name of the function: for a record [FUNC], an address, a size and
    a name, one space between them, the name comes back as it stands,
    spaces included, with the address and the size read in base 16. *)
Theorem ParseFunction_keeps_the_name address size name eol :
  TokenRule.word address = true ->
  TokenRule.word size = true ->
  name <> EmptyString ->
  TokenRule.no_newline name = true ->
  TokenRule.all_newline eol = true ->
  record_kind (TokenRule.spaced ["FUNC"; address; size]
                 (String.append name eol)) = FUNC_record
  /\ ParseFunction (TokenRule.spaced ["FUNC"; address; size]
                      (String.append name eol))
     = Some (Function.mk name (CLib.strtoull address 16)
               (CLib.strtoull size 16) RangeMap.empty).
Proof.
  intros Ha Hs Hname Hnl Heol. split; [reflexivity|].
  unfold ParseFunction.
  change (CLib.advance 5 (TokenRule.spaced ["FUNC"; address; size]
                            (String.append name eol)))
    with (TokenRule.spaced [address; size] (String.append name eol)).
  rewrite (Tokenize_spaced [address; size] name eol 3);
    [reflexivity | lia | reflexivity | repeat constructor; assumption
    | assumption | assumption | assumption].
Qed.

Lemma ParseFunction_keeps_the_name_witness :
  TokenRule.spaced ["FUNC"; "1a40"; "2c"]
    (record "std::vector<int, std::allocator<int> >::push_back(int const&)")
  = record "FUNC 1a40 2c std::vector<int, std::allocator<int> >::push_back(int const&)"
  /\ ParseFunction
       (record "FUNC 1a40 2c std::vector<int, std::allocator<int> >::push_back(int const&)")
     = Some (Function.mk
               "std::vector<int, std::allocator<int> >::push_back(int const&)"
               0x1a40 0x2c RangeMap.empty).
Proof.
  split; [reflexivity|].
  apply (ParseFunction_keeps_the_name "1a40" "2c"
           "std::vector<int, std::allocator<int> >::push_back(int const&)"
           end_of_line);
    [reflexivity | reflexivity | discriminate | reflexivity | reflexivity].
Defined.

(** ** Files of FILE records *)

Lemma FILE_records_loop lines :
  Forall (fun b => record_kind b = FILE_record) lines ->
  forall m cur_func,
    exists m',
      LoadMap_loop m cur_func lines = (true, m')
      /\ functions_ m' = functions_ m
      /\ objects m' = objects m
      /\ stack_info_ m' = stack_info_ m.
Proof.
  induction 1 as [|b lines Hk _ IH]; intros m cur_func.
  - exists m. repeat split.
  - cbn [LoadMap_loop].
    assert (Hstep : LoadMap_step m cur_func b = Some (ParseFile m b, cur_func)).
    { kind_cases b. }
    rewrite Hstep.
    destruct (IH (ParseFile m b) cur_func) as (m' & Hloop & Hf & Ho & Hs).
    destruct (ParseFile_index m b) as (Hf' & Ho' & Hs').
    exists m'. split; [exact Hloop|]. repeat split; congruence.
Qed.

Lemma LookupAddress_nothing_stored m address frame frame_info :
  functions_ m = RangeMap.empty ->
  stack_info_ m
  = replicate (Z.to_nat STACK_INFO_LAST) ContainedRangeMap.empty ->
  LookupAddress m address frame frame_info = (frame, frame_info).
Proof.
  intros Hf Hs. rewrite LookupAddress_split. unfold LookupAddress.
  rewrite Hf. cbn [RangeMap.RetrieveRange RangeMap.empty List.find fst].
  f_equal. destruct frame_info as [info|]; [|reflexivity]. f_equal.
  unfold probe_stack_info, stack_info_at. rewrite Hs. reflexivity.
Qed.

(** X17.  A symbol file that holds nothing but FILE records, the empty
    file among them, always loads: [LoadModule] returns true under a
    free name, closes the file, and registers a module in which no
    address resolves to anything. *)
Theorem file_of_FILE_records_loads w modules name path content :
  modules !! name = None ->
  disk w !! path = Some content ->
  Forall (fun b => record_kind b = FILE_record) (buffers content) ->
  exists module w',
    LoadModule w modules name path = (true, <[name := module]> modules, w')
    /\ open_handles w' = open_handles w
    /\ forall address frame frame_info,
        LookupAddress module address frame frame_info = (frame, frame_info).
Proof.
  intros Hfree Hdisk Hall.
  destruct (FILE_records_loop _ Hall (new_Module name) None)
    as (module & Hloop & Hf & _ & Hs).
  exists module, (fclose (mkWorld (disk w) (S (open_handles w)))).
  split; [|split; [reflexivity|]].
  - unfold LoadModule, LoadMap, fopen. rewrite Hfree, Hdisk, Hloop.
    reflexivity.
  - intros address frame frame_info.
    apply LookupAddress_nothing_stored; assumption.
Qed.

Lemma file_of_FILE_records_loads_witness :
  buffers (symbol_file []) = []
  /\ (exists module w',
        LoadModule (world_with "app.sym" []) ∅ "app" "app.sym"
        = (true, <["app" := module]> ∅, w')
        /\ open_handles w' = 0%nat
        /\ forall address frame frame_info,
            LookupAddress module address frame frame_info
            = (frame, frame_info))
  /\ exists module w',
      LoadModule (world_with "app.sym" ["FILE 0 a.c"; "FILE x"; "FILE 1 b.c"])
        ∅ "app" "app.sym"
      = (true, <["app" := module]> ∅, w')
      /\ open_handles w' = 0%nat
      /\ forall address frame frame_info,
          LookupAddress module address frame frame_info
          = (frame, frame_info).
Proof.
  split; [reflexivity|]. split.
  - apply (file_of_FILE_records_loads (world_with "app.sym" []) ∅
             "app" "app.sym" (symbol_file []));
      [apply lookup_empty | reflexivity | constructor].
  - apply (file_of_FILE_records_loads
             (world_with "app.sym" ["FILE 0 a.c"; "FILE x"; "FILE 1 b.c"]) ∅
             "app" "app.sym"
             (symbol_file ["FILE 0 a.c"; "FILE x"; "FILE 1 b.c"]));
      [apply lookup_empty | reflexivity | repeat constructor].
Defined.
